(** * rosapi: a telnet client for the MikroTik RouterOS console

    A shallow embedding of [rosapi.py].  Python byte strings are Rocq
    [string]s, dictionaries are [gmap string string], the telnet session,
    the clock and the logger are threaded through a small state-and-exception
    monad, and the regular expressions handed to [re.findall] are kept as
    syntax trees run by a backtracking matcher with Python's priorities. *)

From Stdlib Require Import Ascii String NArith.
From stdpp Require Import base list strings gmap.


(** ** Characters the source writes as escapes *)

Definition ESC : ascii := "027"%char.
Definition CR : ascii := "013"%char.
Definition LF : ascii := "010"%char.
Definition DQ : ascii := "034"%char.

(** ** Python string primitives *)

Module Py.

(** [strip_prefix p s] is [Some r] when [s == p + r], the test behind
    [s.startswith(p)]. *)
Fixpoint strip_prefix (p s : string) : option string :=
  match p with
  | "" => Some s
  | String a p' =>
      match s with
      | "" => None
      | String b s' => if Ascii.eqb a b then strip_prefix p' s' else None
      end
  end.

Definition startswith (s p : string) : bool :=
  match strip_prefix p s with Some _ => true | None => false end.

(** [p in s] *)
Fixpoint contains (p s : string) : bool :=
  startswith s p ||
  match s with
  | "" => false
  | String _ s' => contains p s'
  end.

(** The scan of [str.replace(old, new)] for a non-empty [old]: left to
    right, non-overlapping.  [skip] counts the characters of the occurrence
    just replaced that are still to be dropped. *)
Fixpoint replace_go (old new s : string) (skip : nat) : string :=
  match s with
  | "" => ""
  | String c s' =>
      match skip with
      | S n => replace_go old new s' n
      | O =>
          if startswith s old
          then new +:+ replace_go old new s' (String.length old - 1)
          else String c (replace_go old new s' 0)
      end
  end.

(** With an empty [old], Python puts [new] before every character and at
    the end. *)
Fixpoint intersperse (new s : string) : string :=
  match s with
  | "" => new
  | String c s' => new +:+ String c (intersperse new s')
  end.

Definition replace (s old new : string) : string :=
  match old with
  | "" => intersperse new s
  | String _ _ => replace_go old new s 0
  end.

Fixpoint all_chars (P : ascii -> bool) (s : string) : bool :=
  match s with
  | "" => true
  | String c s' => P c && all_chars P s'
  end.

End Py.

(** ** [untag] *)

Definition SGR_RESET : string := String ESC "[m".
Definition SGR_GREEN : string := String ESC "[32m".
Definition SGR_BOLD : string := String ESC "[1m".
Definition SGR_BOLD_RED : string := String ESC "[31;1m".
Definition ERASE_EOL : string := String ESC "[K".
Definition SGR_CYAN : string := String ESC "[36m".

Definition untag (text : string) : string :=
  Py.replace (Py.replace (Py.replace (Py.replace (Py.replace (Py.replace text
    SGR_RESET "") SGR_GREEN "") SGR_BOLD "") SGR_BOLD_RED "") ERASE_EOL "")
    SGR_CYAN "".

(** The six sequences, in the order [untag] removes them. *)
Definition control_sequences : list string :=
  [SGR_RESET; SGR_GREEN; SGR_BOLD; SGR_BOLD_RED; ERASE_EOL; SGR_CYAN].

Definition tag_free (text : string) : bool :=
  forallb (fun q => negb (Py.contains q text)) control_sequences.


(** ** Regular expressions, as [re.findall] runs them *)

Module Re.

(** The character sets the patterns use: [.] (no DOTALL flag, so anything
    but a newline), [\d] and [[\s\S]]. *)
Inductive cls := Dot | Digit | Any.

Definition cls_match (k : cls) (c : ascii) : bool :=
  match k with
  | Dot => negb (Ascii.eqb c LF)
  | Digit => (48 <=? nat_of_ascii c)%nat && (nat_of_ascii c <=? 57)%nat
  | Any => true
  end.

(** A piece is literal text or a character set under a quantifier. *)
Inductive piece :=
  | Lit (s : string)
  | One (k : cls)
  | Star (k : cls)
  | StarLazy (k : cls)
  | Plus (k : cls).

(** A node is a piece on its own, inside [( )], or inside [(?: )]. *)
Inductive node :=
  | Bare (p : piece)
  | Group (p : piece)
  | Cluster (p : piece).

Definition regex := list node.

(** The pattern text a syntax tree stands for. *)
Definition show_cls (k : cls) : string :=
  match k with
  | Dot => "."
  | Digit => "\d"
  | Any => "[\s\S]"
  end.

Definition show_piece (p : piece) : string :=
  match p with
  | Lit s => s
  | One k => show_cls k
  | Star k => show_cls k +:+ "*"
  | StarLazy k => show_cls k +:+ "*?"
  | Plus k => show_cls k +:+ "+"
  end.

Definition show_node (n : node) : string :=
  match n with
  | Bare p => show_piece p
  | Group p => "(" +:+ show_piece p +:+ ")"
  | Cluster p => "(?:" +:+ show_piece p +:+ ")"
  end.

Definition show (r : regex) : string :=
  foldr (fun n acc => show_node n +:+ acc) "" r.

(** The outcome of a match attempt: the groups in order and the text left
    after the match. *)
Definition outcome := option (list string * string).

(** A continuation receives what the piece matched and what is left. *)
Definition cont := string -> string -> outcome.

(** Greedy repetition: take one more character first, give it back when the
    rest of the pattern fails. *)
Fixpoint greedy (k : cls) (s : string) (kont : cont) : outcome :=
  match s with
  | "" => kont "" ""
  | String c s' =>
      if cls_match k c then
        match greedy k s' (fun m => kont (String c m)) with
        | Some r => Some r
        | None => kont "" s
        end
      else kont "" s
  end.

(** Lazy repetition: try the rest of the pattern first, take one more
    character when it fails. *)
Fixpoint lazy (k : cls) (s : string) (kont : cont) : outcome :=
  match kont "" s with
  | Some r => Some r
  | None =>
      match s with
      | "" => None
      | String c s' =>
          if cls_match k c then lazy k s' (fun m => kont (String c m))
          else None
      end
  end.

Definition match_piece (p : piece) (s : string) (kont : cont) : outcome :=
  match p with
  | Lit l =>
      match Py.strip_prefix l s with
      | Some rest => kont l rest
      | None => None
      end
  | One k =>
      match s with
      | "" => None
      | String c s' => if cls_match k c then kont (String c "") s' else None
      end
  | Star k => greedy k s kont
  | StarLazy k => lazy k s kont
  | Plus k =>
      match s with
      | "" => None
      | String c s' =>
          if cls_match k c then greedy k s' (fun m => kont (String c m))
          else None
      end
  end.

(** Match the nodes in sequence at the start of [s]; [groups] holds the
    groups closed so far. *)
Fixpoint match_nodes (r : regex) (s : string) (groups : list string) : outcome :=
  match r with
  | [] => Some (groups, s)
  | Bare p :: r' => match_piece p s (fun _ rest => match_nodes r' rest groups)
  | Cluster p :: r' => match_piece p s (fun _ rest => match_nodes r' rest groups)
  | Group p :: r' =>
      match_piece p s (fun m rest => match_nodes r' rest (groups ++ [m]))
  end.

Definition match_here (r : regex) (s : string) : outcome := match_nodes r s [].

(** The scan of [re.findall]: try every start position from the left; after
    a match resume where it ended.  [skip] counts the characters of the last
    match still to be passed over. *)
Fixpoint findall_go (r : regex) (s : string) (skip : nat) : list (list string) :=
  match s with
  | "" =>
      match skip, match_here r "" with
      | O, Some (groups, _) => [groups]
      | _, _ => []
      end
  | String _ s' =>
      match skip with
      | S n => findall_go r s' n
      | O =>
          match match_here r s with
          | Some (groups, rest) =>
              groups :: findall_go r s' (String.length s - String.length rest - 1)
          | None => findall_go r s' 0
          end
      end
  end.

(** One list of groups per match.  Python hands back a tuple when the
    pattern has several groups and the bare string when it has one. *)
Definition findall (r : regex) (s : string) : list (list string) :=
  findall_go r s 0.

(** The n-th group of a match, [item[n]] in the source. *)
Definition group (item : list string) (n : nat) : string := item !!! n.

End Re.
Import Re.

(** ** Exceptions, values and the session *)

Inductive exn :=
  | RosError (msg : string)
  | UnboundLocalError (name : string)
  | KeyError (key : string)
  | EOFError.

Inductive result (A : Type) :=
  | Ok (a : A)
  | Raise (e : exn).
Arguments Ok {A} a.
Arguments Raise {A} e.

(** The values the local [num] of the lookup helpers holds: the integer it
    starts from or a string taken from a record. *)
Inductive pyval :=
  | PInt (z : Z)
  | PStr (s : string).

(** [==] on these values: an integer never equals a string. *)
Definition py_eq (a b : pyval) : bool :=
  match a, b with
  | PInt x, PInt y => bool_decide (x = y)
  | PStr x, PStr y => bool_decide (x = y)
  | _, _ => false
  end.

(** Truth value of a local that holds [None] or a string. *)
Definition truthy (v : option string) : bool :=
  match v with
  | None => false
  | Some s => negb (bool_decide (s = ""))
  end.

Inductive level := DEBUG | INFO.

(** The telnet connection and what surrounds it.  Time is in milliseconds;
    [inbound] lists what the router sends and when it reaches the socket. *)
Record world := World {
  clock : N;
  inbound : list (N * string);
  closed : bool;
  sent : list string;
  journal : list (level * string)
}.

Definition M (A : Type) : Type := world -> result A * world.

#[global] Instance M_ret : MRet M := fun A a w => (Ok a, w).
#[global] Instance M_bind : MBind M := fun A B f m w =>
  match m w with
  | (Ok a, w') => f a w'
  | (Raise e, w') => (Raise e, w')
  end.
#[global] Instance M_fmap : FMap M := fun A B f m w =>
  match m w with
  | (Ok a, w') => (Ok (f a), w')
  | (Raise e, w') => (Raise e, w')
  end.
#[global] Instance M_throw : MThrow exn M := fun A e w => (Raise e, w).

(** [for x in l: body], with the locals the body assigns threaded as [s]. *)
Fixpoint for_each {A S : Type} (l : list A) (body : A -> S -> M S) (s : S) : M S :=
  match l with
  | [] => mret s
  | x :: l' => s' ← body x s; for_each l' body s'
  end.

(** [d[key]] *)
Definition getitem (d : gmap string string) (key : string) : M string :=
  match d !! key with
  | Some v => mret v
  | None => mthrow (KeyError key)
  end.

(** Reading a local variable that may not have been assigned yet. *)
Definition read_local {A : Type} (name : string) (v : option A) : M A :=
  match v with
  | Some a => mret a
  | None => mthrow (UnboundLocalError name)
  end.

Definition log (l : level) (msg : string) : M unit := fun w =>
  (Ok (), World (clock w) (inbound w) (closed w) (sent w) (journal w ++ [(l, msg)])).

(** [time.sleep] *)
Definition sleep (ms : N) : M unit := fun w =>
  (Ok (), World (clock w + ms) (inbound w) (closed w) (sent w) (journal w)).

(** [Telnet.write] *)
Definition tn_write (buffer : string) : M unit := fun w =>
  (Ok (), World (clock w) (inbound w) (closed w) (sent w ++ [buffer]) (journal w)).

Definition arrived (now : N) (chunk : N * string) : Prop := (chunk.1 <= now)%N.

#[global] Instance arrived_dec now chunk : Decision (arrived now chunk).
Proof. unfold arrived. apply _. Defined.

(** What a drain at time [now] finds in the socket. *)
Definition available (now : N) (chunks : list (N * string)) : string :=
  String.concat "" (filter (arrived now) chunks).*2.

(** [Telnet.read_very_eager]: everything that has arrived, without
    blocking; [EOFError] when the connection is closed and nothing is left. *)
Definition read_very_eager : M string := fun w =>
  let data := available (clock w) (inbound w) in
  if closed w && bool_decide (data = "") then (Raise EOFError, w)
  else (Ok data,
        World (clock w) (filter (fun c => ¬ arrived (clock w) c) (inbound w))
              (closed w) (sent w) (journal w)).

(** [TelnetCtrl.write] *)
Definition write (command : string) : M unit :=
  log DEBUG ("Send telnet command " +:+ command);;
  tn_write (command +:+ String CR "").

(** ** [ErrorHandler] *)

Definition QUOTE : string := String DQ "".

Definition CR_LF_CR : string := String CR (String LF (String CR "")).
Definition LF_CR : string := String LF (String CR "").

Definition failure_re : regex :=
  [Bare (Lit CR_LF_CR); Group (Star Dot); Bare (Lit LF_CR)].

Definition check_result (where_ result : string) : M unit :=
  let failure := findall failure_re result in
  match failure with
  | first :: _ =>
      let error_msg := where_ +:+ " Failed, " +:+ group first 0 in
      mthrow (RosError error_msg)
  | [] => log INFO (where_ +:+ " Success")
  end.

(** ** [AddressPool] *)

Definition pool_re : regex :=
  [Bare (Lit ("name=" +:+ QUOTE)); Group (Star Dot);
   Bare (Lit (QUOTE +:+ " ranges=")); Group (Star Dot); Bare (Lit " ")].

Definition get_address_pool : M (list (string * string)) :=
  let cmd := "/ip pool print detail" in
  write cmd;;
  sleep 1000;;
  rc ← untag <$> read_very_eager;
  let pool_list := (fun pool => (group pool 0, group pool 1)) <$> findall pool_re rc in
  let pool_dict :=
    foldl (fun (d : gmap string string) pool => <[pool.1 := pool.2]> d) ∅ pool_list in
  mret pool_list.

Definition add_address_pool (name ranges : string) : M unit :=
  let cmd := "/ip pool add name=" +:+ name +:+ " ranges=" +:+ ranges in
  write cmd;;
  sleep 500;;
  rc ← read_very_eager;
  check_result "Add Pool" rc.

(** ** [DHCPServer] *)

Definition add_dhcp_server (name interface address_pool lease_time : string)
    (enabled : bool) : M unit :=
  let enabled := if enabled then "no" else "yes" in
  let cmd := "/ip dhcp-server add name=" +:+ name +:+ " interface=" +:+ interface
             +:+ " address-pool=" +:+ address_pool +:+ " lease-time=" +:+ lease_time
             +:+ " disabled=" +:+ enabled in
  write cmd;;
  sleep 500;;
  rc ← read_very_eager;
  check_result "Add DHCP Server" rc.

Definition dhcp_client_re : regex :=
  [Bare (Lit "address="); Group (Star Dot);
   Bare (Lit " mac-address="); Group (Star Dot);
   Bare (Lit " "); Cluster (Star Any);
   Bare (Lit "server="); Group (Star Dot);
   Bare (Lit " "); Cluster (Star Any);
   Bare (Lit ("host-name=" +:+ QUOTE)); Group (Star Dot);
   Bare (Lit (QUOTE +:+ " "))].

Definition client_of (client : list string) : gmap string string :=
  let client_dict : gmap string string := ∅ in
  let client_dict := <["ip" := group client 0]> client_dict in
  let client_dict := <["mac" := group client 1]> client_dict in
  let client_dict := <["server" := group client 2]> client_dict in
  let client_dict := <["hostname" := group client 3]> client_dict in
  client_dict.

Definition get_dhcp_server_client : M (list (gmap string string)) :=
  let cmd := "/ip dhcp-server lease print detail" in
  write cmd;;
  sleep 500;;
  rc ← untag <$> read_very_eager;
  let client_result := findall dhcp_client_re rc in
  mret (client_of <$> client_result).

Definition dhcp_network_re : regex :=
  [Group (One Digit);
   Bare (Lit " address="); Group (StarLazy Dot);
   Bare (Lit " gateway="); Group (StarLazy Dot);
   Bare (Lit " netmask="); Group (StarLazy Dot);
   Bare (Lit " "); Cluster (Star Any);
   Bare (Lit "dns-server="); Group (StarLazy Dot);
   Bare (Lit " ")].

Definition network_of (network : list string) : gmap string string :=
  let network_dict : gmap string string := ∅ in
  let network_dict := <["num" := group network 0]> network_dict in
  let network_dict := <["address" := group network 1]> network_dict in
  let network_dict := <["gateway" := group network 2]> network_dict in
  let network_dict := <["netmask" := group network 3]> network_dict in
  let network_dict := <["dns_server" := group network 4]> network_dict in
  network_dict.

Definition get_dhcp_server_network : M (list (gmap string string)) :=
  let cmd := "/ip dhcp-server network print detail" in
  write cmd;;
  sleep 500;;
  rc ← untag <$> read_very_eager;
  let network_result := findall dhcp_network_re rc in
  mret (network_of <$> network_result).

(** The scan shared by the three lookup helpers: [num] starts at [-1] and
    is overwritten by every record whose [field] equals [wanted]. *)
Definition scan_number (field wanted : string)
    (records : list (gmap string string)) : M pyval :=
  for_each records (fun record num =>
    v ← getitem record field;
    if bool_decide (v = wanted)
    then n ← getitem record "num"; mret (PStr n)
    else mret num) (PInt (-1)).

Definition get_dhcp_server_network_number (address : string) : M pyval :=
  network_list ← get_dhcp_server_network;
  num ← scan_number "address" address network_list;
  if py_eq num (PInt (-1)) then
    let errmsg := "No Matched DHCP Server Network Number for Address" +:+ address in
    mthrow (RosError errmsg)
  else mret num.

(** ** [PPPoEServer] *)

Definition pppoe_server_re : regex :=
  [Group (Plus Digit); Bare (Lit " "); Group (StarLazy Dot);
   Bare (Lit " "); Cluster (StarLazy Any);
   Bare (Lit ("service-name=" +:+ QUOTE)); Group (Star Dot);
   Bare (Lit (QUOTE +:+ " interface=")); Group (Star Dot);
   Bare (Lit " max-mtu="); Group (Star Dot);
   Bare (Lit " max-mru="); Group (Star Dot);
   Bare (Lit " "); Cluster (StarLazy Any);
   Bare (Lit "authentication="); Group (StarLazy Dot);
   Bare (Lit " "); Cluster (StarLazy Any);
   Bare (Lit "default-profile="); Group (Star Dot);
   Bare (Lit " ")].

Definition pppoe_server_status (flag : string) : string :=
  if bool_decide (flag = "X") then "disabled"
  else if bool_decide (flag = "I") then "invalid"
  else if bool_decide (flag = "XI") then "disabled and invalid"
  else "enabled".

Definition pppoe_server_of (item : list string) : gmap string string :=
  let pppoe_server : gmap string string := ∅ in
  let pppoe_server := <["num" := group item 0]> pppoe_server in
  let pppoe_server := <["status" := pppoe_server_status (group item 1)]> pppoe_server in
  let pppoe_server := <["service_name" := group item 2]> pppoe_server in
  let pppoe_server := <["interface" := group item 3]> pppoe_server in
  let pppoe_server := <["max_mtu" := group item 4]> pppoe_server in
  let pppoe_server := <["max_mru" := group item 5]> pppoe_server in
  let pppoe_server := <["authentication" := group item 6]> pppoe_server in
  let pppoe_server := <["default_profile" := group item 7]> pppoe_server in
  pppoe_server.

Definition get_pppoe_server : M (list (gmap string string)) :=
  let cmd := "/interface pppoe-server server print detail" in
  write cmd;;
  sleep 500;;
  rc ← untag <$> read_very_eager;
  let pppoe_server_result := findall pppoe_server_re rc in
  mret (pppoe_server_of <$> pppoe_server_result).

Definition ppp_profile_re : regex :=
  [Bare (Lit ("name=" +:+ QUOTE)); Group (Star Dot);
   Bare (Lit (QUOTE +:+ " local-address=")); Group (Star Dot);
   Bare (Lit " remote-address="); Group (StarLazy Dot);
   Bare (Lit " "); Cluster (StarLazy Any);
   Bare (Lit "use-encryption="); Group (StarLazy Dot);
   Bare (Lit " "); Cluster (StarLazy Any);
   Bare (Lit "dns-server="); Group (StarLazy Dot);
   Bare (Lit " ")].

Definition profile_of (item : list string) : gmap string string :=
  let profile : gmap string string := ∅ in
  let profile := <["name" := group item 0]> profile in
  let profile := <["local_address" := group item 1]> profile in
  let profile := <["remote_address" := group item 2]> profile in
  let profile := <["use_encryption" := group item 3]> profile in
  let profile := <["dns_server" := group item 4]> profile in
  profile.

Definition get_ppp_profile : M (list (gmap string string)) :=
  let cmd := "/ppp profile print without-paging" in
  write cmd;;
  sleep 500;;
  rc ← untag <$> read_very_eager;
  let profile_result := findall ppp_profile_re rc in
  mret (profile_of <$> profile_result).

Definition get_pppoe_server_number (service_name : string) : M pyval :=
  pppoe_server_list ← get_pppoe_server;
  num ← scan_number "service_name" service_name pppoe_server_list;
  if py_eq num (PInt (-1)) then
    let errmsg := "No Matched PPPoE Server Number for Service Name " +:+ service_name in
    mthrow (RosError errmsg)
  else mret num.

Definition add_pppoe_server (service_name interface default_profile max_mtu max_mru : string)
    (enabled : bool) : M unit :=
  let enabled := if enabled then "yes" else "no" in
  let cmd := "/ interface pppoe-server server add service-name=" +:+ service_name
             +:+ " interface=" +:+ interface +:+ " default-profile=" +:+ default_profile
             +:+ " max-mtu=" +:+ max_mtu +:+ " max-mru=" +:+ max_mru
             +:+ " disabled=" +:+ enabled in
  write cmd;;
  sleep 500;;
  rc ← read_very_eager;
  check_result "Add PPPoE Server" rc.

Definition set_pppoe_server_dns (numbers new_dns : string) : M unit :=
  servers ← get_pppoe_server;
  service_name ← for_each servers (fun server service_name =>
    n ← getitem server "num";
    if bool_decide (n = numbers)
    then s ← getitem server "service_name"; mret (Some s)
    else mret service_name) None;
  profile_name ← for_each servers (fun server profile_name =>
    s ← getitem server "service_name";
    wanted ← read_local "service_name" service_name;
    if bool_decide (s = wanted)
    then p ← getitem server "default_profile"; mret (Some p)
    else mret profile_name) None;
  if truthy profile_name then
    let cmd := "/ppp profile set numbers=" +:+ default "" profile_name
               +:+ " dns-server=" +:+ new_dns in
    write cmd;;
    sleep 500;;
    rc ← read_very_eager;
    check_result "Set PPPoE Server DNS" rc
  else
    wanted ← read_local "service_name" service_name;
    let errmsg := "No Matched PPPoE Server Profile for Service Name " +:+ wanted in
    mthrow (RosError errmsg).

Definition ppp_secret_re : regex :=
  [Group (Plus Digit); Bare (Lit " "); Group (StarLazy Dot);
   Bare (Lit (" name=" +:+ QUOTE)); Group (StarLazy Dot);
   Bare (Lit (QUOTE +:+ " service=")); Group (StarLazy Dot);
   Bare (Lit " "); Cluster (StarLazy Any);
   Bare (Lit ("password=" +:+ QUOTE)); Group (Star Dot);
   Bare (Lit QUOTE); Cluster (StarLazy Any);
   Bare (Lit "profile="); Group (StarLazy Dot);
   Bare (Lit " ")].

Definition ppp_secret_status (flag : string) : string :=
  if bool_decide (flag = "X") then "disabled" else "enabled".

Definition secret_of (item : list string) : gmap string string :=
  let secret : gmap string string := ∅ in
  let secret := <["num" := group item 0]> secret in
  let secret := <["status" := ppp_secret_status (group item 1)]> secret in
  let secret := <["name" := group item 2]> secret in
  let secret := <["service" := group item 3]> secret in
  let secret := <["password" := group item 4]> secret in
  let secret := <["profile" := group item 5]> secret in
  secret.

Definition get_ppp_secret : M (list (gmap string string)) :=
  let cmd := "/ppp secret print detail" in
  write cmd;;
  sleep 500;;
  rc ← untag <$> read_very_eager;
  let secret_result := findall ppp_secret_re rc in
  mret (secret_of <$> secret_result).

Definition add_ppp_secret (secret_name service_name profile_name password : string)
    (enabled : bool) : M unit :=
  let enabled := if enabled then "no" else "yes" in
  let cmd := "/ppp secret add name=" +:+ secret_name +:+ " service=" +:+ service_name
             +:+ " profile=" +:+ profile_name +:+ " password=" +:+ password
             +:+ " disabled=" +:+ enabled in
  write cmd;;
  sleep 500;;
  rc ← read_very_eager;
  check_result "Add PPPoE Server Secret" rc.

Definition get_ppp_secret_number (secret_name : string) : M pyval :=
  secret_list ← get_ppp_secret;
  num ← scan_number "name" secret_name secret_list;
  if py_eq num (PInt (-1)) then
    let errmsg := "No Matched PPP Secret Number for Secret Name " +:+ secret_name in
    mthrow (RosError errmsg)
  else mret num.

(** ** Vocabulary of the statements *)

(** A failure echo in [text]: after [before] come CR LF CR, a message
    without a newline, then LF CR. *)
Definition marker_at (text before msg after : string) : Prop :=
  text = before +:+ CR_LF_CR +:+ msg +:+ LF_CR +:+ after /\
  Py.all_chars (cls_match Dot) msg = true.

(** [msg] is the message of the leftmost failure echo. *)
Definition first_marker (text msg : string) : Prop :=
  exists before after,
    marker_at text before msg after /\
    forall before' msg' after',
      marker_at text before' msg' after' ->
      String.length before <= String.length before'.

(** The failure pattern in the words of the specification: two carriage
    returns, arbitrary text, then newline and carriage return. *)
Definition two_cr_marker_in (text : string) : Prop :=
  exists before msg after,
    text = before +:+ String CR (String CR "") +:+ msg +:+ LF_CR +:+ after.

(** A session just opened: nothing received, sent or logged. *)
Definition fresh : world := World 0 [] false [] [].

(** The message "no such item" between two carriage returns and LF CR. *)
Definition two_cr_echo : string :=
  String CR (String CR "") +:+ "no such item" +:+ LF_CR.

Definition CRLF : string := String CR (String LF "").

(** The two address-pool entries of the specification's fixture, as the
    console prints them: a row number in front, a blank and a line end
    behind, between the echoed command and the next prompt. *)
Definition pool_console : string :=
  "/ip pool print detail" +:+ CRLF +:+
  " 0 name=" +:+ QUOTE +:+ "pppoe" +:+ QUOTE +:+
  " ranges=192.168.100.201-192.168.100.250 " +:+ CRLF +:+ CRLF +:+
  " 1 name=" +:+ QUOTE +:+ "static" +:+ QUOTE +:+
  " ranges=192.168.2.1-192.168.2.100 " +:+ CRLF +:+ CRLF +:+
  "[admin@MikroTik] > ".

(** The same two entries and nothing else but the blank and the newline
    that end each line. *)
Definition pool_plain : string :=
  "name=" +:+ QUOTE +:+ "pppoe" +:+ QUOTE +:+
  " ranges=192.168.100.201-192.168.100.250 " +:+ String LF "" +:+
  "name=" +:+ QUOTE +:+ "static" +:+ QUOTE +:+
  " ranges=192.168.2.1-192.168.2.100 " +:+ String LF "".

(** A session whose router answers with [data] after [delay] ms. *)
Definition answering (delay : N) (data : string) : world :=
  World 0 [(delay, data)] false [] [].

(** Two PPPoE servers, the first flagged X, the second flagged D. *)
Definition pppoe_console : string :=
  " 0 X service-name=" +:+ QUOTE +:+ "service1" +:+ QUOTE +:+
  " interface=ether1 max-mtu=1480 max-mru=1480 mrru=disabled " +:+ CRLF +:+
  "      authentication=pap,chap keepalive-timeout=10 default-profile=default " +:+ CRLF +:+
  " 1 D service-name=" +:+ QUOTE +:+ "service2" +:+ QUOTE +:+
  " interface=ether2 max-mtu=auto max-mru=auto mrru=disabled " +:+ CRLF +:+
  "      authentication=pap keepalive-timeout=10 default-profile=profile2 " +:+ CRLF.

(** The record extractors that build dictionaries, with the keys each one
    assigns. *)
Inductive entity := Lease | Network | Server | Profile | Secret.

Definition extract (e : entity) : M (list (gmap string string)) :=
  match e with
  | Lease => get_dhcp_server_client
  | Network => get_dhcp_server_network
  | Server => get_pppoe_server
  | Profile => get_ppp_profile
  | Secret => get_ppp_secret
  end.

Definition keys (e : entity) : list string :=
  match e with
  | Lease => ["ip"; "mac"; "server"; "hostname"]
  | Network => ["num"; "address"; "gateway"; "netmask"; "dns_server"]
  | Server => ["num"; "status"; "service_name"; "interface"; "max_mtu";
               "max_mru"; "authentication"; "default_profile"]
  | Profile => ["name"; "local_address"; "remote_address"; "use_encryption";
                "dns_server"]
  | Secret => ["num"; "status"; "name"; "service"; "password"; "profile"]
  end.

Definition command (e : entity) : string :=
  match e with
  | Lease => "/ip dhcp-server lease print detail"
  | Network => "/ip dhcp-server network print detail"
  | Server => "/interface pppoe-server server print detail"
  | Profile => "/ppp profile print without-paging"
  | Secret => "/ppp secret print detail"
  end.

Definition pattern (e : entity) : regex :=
  match e with
  | Lease => dhcp_client_re
  | Network => dhcp_network_re
  | Server => pppoe_server_re
  | Profile => ppp_profile_re
  | Secret => ppp_secret_re
  end.

Definition record_of (e : entity) : list string -> gmap string string :=
  match e with
  | Lease => client_of
  | Network => network_of
  | Server => pppoe_server_of
  | Profile => profile_of
  | Secret => secret_of
  end.

(** The three helpers that turn a name into a row number. *)
Inductive helper := NetworkByAddress | ServerByServiceName | SecretByName.

Definition lookup_number (h : helper) : string -> M pyval :=
  match h with
  | NetworkByAddress => get_dhcp_server_network_number
  | ServerByServiceName => get_pppoe_server_number
  | SecretByName => get_ppp_secret_number
  end.

Definition scanned (h : helper) : entity :=
  match h with
  | NetworkByAddress => Network
  | ServerByServiceName => Server
  | SecretByName => Secret
  end.

Definition lookup_field (h : helper) : string :=
  match h with
  | NetworkByAddress => "address"
  | ServerByServiceName => "service_name"
  | SecretByName => "name"
  end.

Definition not_found (h : helper) (wanted : string) : string :=
  match h with
  | NetworkByAddress => "No Matched DHCP Server Network Number for Address" +:+ wanted
  | ServerByServiceName => "No Matched PPPoE Server Number for Service Name " +:+ wanted
  | SecretByName => "No Matched PPP Secret Number for Secret Name " +:+ wanted
  end.

(** What one round of the scan of a lookup helper does to [num], when the
    record has the keys it reads. *)
Definition scan_step (field wanted : string) (num : pyval)
    (r : gmap string string) : pyval :=
  if bool_decide (r !! field = Some wanted)
  then PStr (default "" (r !! "num"))
  else num.

(** The groups of the two matches in [pppoe_console]. *)
Definition pppoe_items : list (list string) :=
  [["0"; "X"; "service1"; "ether1"; "1480"; "1480 mrru=disabled"; "pap,chap";
    "default"];
   ["1"; "D"; "service2"; "ether2"; "auto"; "auto mrru=disabled"; "pap";
    "profile2"]].

(** Two PPPoE servers with the same service name. *)
Definition pppoe_twins : string :=
  " 0 X service-name=" +:+ QUOTE +:+ "service1" +:+ QUOTE +:+
  " interface=ether1 max-mtu=1480 max-mru=1480 mrru=disabled " +:+ CRLF +:+
  "      authentication=pap,chap keepalive-timeout=10 default-profile=default " +:+ CRLF +:+
  " 1   service-name=" +:+ QUOTE +:+ "service1" +:+ QUOTE +:+
  " interface=ether2 max-mtu=auto max-mru=auto mrru=disabled " +:+ CRLF +:+
  "      authentication=pap keepalive-timeout=10 default-profile=profile2 " +:+ CRLF.

Definition twin_items : list (list string) :=
  [["0"; "X"; "service1"; "ether1"; "1480"; "1480 mrru=disabled"; "pap,chap";
    "default"];
   ["1"; ""; "service1"; "ether2"; "auto"; "auto mrru=disabled"; "pap";
    "profile2"]].

(** The session after the PPPoE server list has been asked for and read. *)
Definition pppoe_asked : world :=
  World 500 [] false
    ["/interface pppoe-server server print detail" +:+ String CR ""]
    [(DEBUG, "Send telnet command /interface pppoe-server server print detail")].

(** ** The remaining operations of the source *)

(** [str.lower] on a byte string, in the default locale: the letters A-Z. *)
Definition lower_char (c : ascii) : ascii :=
  if (65 <=? nat_of_ascii c)%nat && (nat_of_ascii c <=? 90)%nat
  then ascii_of_nat (nat_of_ascii c + 32)
  else c.

Fixpoint lower (s : string) : string :=
  match s with
  | "" => ""
  | String c s' => String (lower_char c) (lower s')
  end.

(** *** [AddressPool] *)

Definition remove_address_pool (numbers : string) : M unit :=
  let cmd := "/ip pool remove numbers=" +:+ numbers in
  write cmd;;
  sleep 500;;
  rc ← read_very_eager;
  check_result "Remove Address Pool" rc.

Definition set_address_pool_name (numbers new_name : string) : M unit :=
  let cmd := "/ip pool set numbers=" +:+ numbers +:+ " name=" +:+ new_name in
  write cmd;;
  sleep 500;;
  rc ← read_very_eager;
  check_result "Set Pool Name" rc.

Definition set_address_pool_ranges (numbers new_ranges : string) : M unit :=
  let cmd := "/ip pool set numbers=" +:+ numbers +:+ " ranges=" +:+ new_ranges in
  write cmd;;
  sleep 500;;
  rc ← read_very_eager;
  check_result "Set Pool Ranges" rc.

(** *** [DHCPServer] *)

Definition remove_dhcp_server (numbers : string) : M unit :=
  let cmd := "/ip dhcp-server remove numbers=" +:+ numbers in
  write cmd;;
  sleep 500;;
  rc ← read_very_eager;
  check_result "Remove DHCP Server" rc.

Definition set_dhcp_server_status (numbers : string) (enabled : bool) : M unit :=
  let status := if enabled then "enable" else "disable" in
  let cmd := "/ip dhcp-server " +:+ status +:+ " numbers=" +:+ numbers in
  write cmd;;
  sleep 500;;
  rc ← read_very_eager;
  check_result "Set DHCP Server Status" rc.

Definition set_dhcp_server_address_pool (numbers address_pool : string) : M unit :=
  let cmd := "/ip dhcp-server set numbers=" +:+ numbers
             +:+ " address-pool=" +:+ address_pool in
  write cmd;;
  sleep 500;;
  rc ← read_very_eager;
  check_result "Set DHCP Servel Address Pool" rc.

Definition set_dhcp_server_lease_time (numbers lease_time : string) : M unit :=
  let cmd := "/ip dhcp-server set numbers=" +:+ numbers
             +:+ " lease-time=" +:+ lease_time in
  write cmd;;
  sleep 500;;
  rc ← read_very_eager;
  check_result "Set DHCP Lease Time" rc.

Definition add_dhcp_server_network (address gateway netmask dns_server : string)
    : M unit :=
  let cmd := "/ip dhcp-server network add address=" +:+ address
             +:+ " gateway=" +:+ gateway +:+ " netmask=" +:+ netmask
             +:+ " dns-server=" +:+ dns_server in
  write cmd;;
  sleep 500;;
  rc ← read_very_eager;
  check_result "Add DHCP Server Network" rc.

Definition remove_dhcp_server_network (numbers : string) : M unit :=
  let cmd := "/ip dhcp-server network remove numbers=" +:+ numbers in
  write cmd;;
  sleep 500;;
  rc ← read_very_eager;
  check_result "Remove DHCP Server Network" rc.

Definition set_dhcp_server_network
    (numbers new_address new_gateway new_netmask new_dns_server : string) : M unit :=
  let cmd := "/ip dhcp-server network set numbers=" +:+ numbers
             +:+ " address=" +:+ new_address +:+ " gateway=" +:+ new_gateway
             +:+ " netmask=" +:+ new_netmask +:+ " dns-server=" +:+ new_dns_server in
  write cmd;;
  sleep 500;;
  rc ← read_very_eager;
  check_result "Set DHCP Server Network" rc.

Definition set_dhcp_server_network_address (numbers new_address : string) : M unit :=
  let cmd := "/ip dhcp-server network set numbers=" +:+ numbers
             +:+ " address=" +:+ new_address in
  write cmd;;
  sleep 500;;
  rc ← read_very_eager;
  check_result "Set DHCP Server Network Address" rc.

Definition set_dhcp_server_network_gateway (numbers new_gateway : string) : M unit :=
  let cmd := "/ip dhcp-server network set numbers=" +:+ numbers
             +:+ " gateway=" +:+ new_gateway in
  write cmd;;
  sleep 500;;
  rc ← read_very_eager;
  check_result "Set DHCP Server Network Gateway" rc.

Definition set_dhcp_server_network_netmask (numbers new_netmask : string) : M unit :=
  let cmd := "/ip dhcp-server network set numbers=" +:+ numbers
             +:+ " netmask=" +:+ new_netmask in
  write cmd;;
  sleep 500;;
  rc ← read_very_eager;
  check_result "Set DHCP Server Network Netmask" rc.

Definition set_dhcp_server_network_dns_server (numbers new_dns_server : string)
    : M unit :=
  let cmd := "/ip dhcp-server network set numbers=" +:+ numbers
             +:+ " dns-server=" +:+ new_dns_server in
  write cmd;;
  sleep 500;;
  rc ← read_very_eager;
  check_result "Set DHCP Server Network DNS Server" rc.

(** *** [PPPoEServer] *)

Definition profile_name_re : regex :=
  [Bare (Lit ("name=" +:+ QUOTE)); Group (Star Dot); Bare (Lit QUOTE)].

Definition get_ppp_profile_name : M (list string) :=
  let cmd := "/ppp profile print detail" in
  write cmd;;
  sleep 500;;
  rc ← untag <$> read_very_eager;
  let profile_list := (fun item => group item 0) <$> findall profile_name_re rc in
  mret profile_list.

Definition remove_pppoe_server (numbers : string) : M unit :=
  let cmd := "/interface pppoe-server server remove numbers=" +:+ numbers in
  write cmd;;
  sleep 500;;
  rc ← read_very_eager;
  check_result "Remove PPPoE Server" rc.

Definition set_pppoe_server_status (numbers : string) (enabled : bool) : M unit :=
  let status := if enabled then "enable" else "disable" in
  let cmd := "/interface pppoe-server server " +:+ status +:+ " numbers=" +:+ numbers in
  write cmd;;
  sleep 500;;
  rc ← read_very_eager;
  check_result "Set PPPoE Server Status" rc.

Definition set_pppoe_server_name (numbers new_service_name : string) : M unit :=
  let cmd := "/interface pppoe-server server set numbers=" +:+ numbers
             +:+ " service-name=" +:+ new_service_name in
  write cmd;;
  sleep 500;;
  rc ← read_very_eager;
  check_result "Set PPPoE Server Service Name" rc.

Definition set_pppoe_server_auth (numbers authentication : string) : M unit :=
  let cmd := "/interface pppoe-server server set numbers=" +:+ numbers
             +:+ " authentication=" +:+ lower authentication in
  write cmd;;
  sleep 500;;
  rc ← read_very_eager;
  check_result "Set PPPoE Server Authentication" rc.

Definition set_pppoe_server_max_mtu (numbers max_mtu : string) : M unit :=
  let cmd := "/interface pppoe-server server set numbers=" +:+ numbers
             +:+ " max-mtu=" +:+ max_mtu in
  write cmd;;
  sleep 500;;
  rc ← read_very_eager;
  check_result "Set PPPoE Server Max MTU" rc.

Definition set_pppoe_server_max_mru (numbers max_mru : string) : M unit :=
  let cmd := "/interface pppoe-server server set numbers=" +:+ numbers
             +:+ " max-mru=" +:+ max_mru in
  write cmd;;
  sleep 500;;
  rc ← read_very_eager;
  check_result "Set PPPoE Server Max MRU" rc.

Definition remove_ppp_secret (numbers : string) : M unit :=
  let cmd := "/ppp secret remove numbers=" +:+ numbers in
  write cmd;;
  sleep 500;;
  rc ← read_very_eager;
  check_result "Remove PPPoE Server Secret" rc.

Definition set_ppp_secret_name (numbers new_name : string) : M unit :=
  let cmd := "/ppp secret set numbers=" +:+ numbers +:+ " name=" +:+ new_name in
  write cmd;;
  sleep 500;;
  rc ← read_very_eager;
  check_result "Set PPP Secret Name" rc.

Definition set_ppp_secret_password (numbers new_password : string) : M unit :=
  let cmd := "/ppp secret set numbers=" +:+ numbers
             +:+ " password=" +:+ new_password in
  write cmd;;
  sleep 500;;
  rc ← read_very_eager;
  check_result "Set PPP Secret Password" rc.

Definition set_ppp_secret_status (numbers : string) (enabled : bool) : M unit :=
  let enabled := if enabled then "no" else "yes" in
  let cmd := "/ppp secret set numbers=" +:+ numbers +:+ " disabled=" +:+ enabled in
  write cmd;;
  sleep 500;;
  rc ← read_very_eager;
  check_result "Set PPP Secret Status" rc.

Definition set_ppp_secret_profile (numbers new_profile_name : string) : M unit :=
  let cmd := "/ppp secret set numbers=" +:+ numbers
             +:+ " profile=" +:+ new_profile_name in
  write cmd;;
  sleep 500;;
  rc ← read_very_eager;
  check_result "Set PPP Secret Profile" rc.

(** ** The operations that change the configuration, as one family *)

Inductive mutation :=
  | AddAddressPool (name ranges : string)
  | RemoveAddressPool (numbers : string)
  | SetAddressPoolName (numbers new_name : string)
  | SetAddressPoolRanges (numbers new_ranges : string)
  | AddDhcpServer (name interface address_pool lease_time : string) (enabled : bool)
  | RemoveDhcpServer (numbers : string)
  | SetDhcpServerStatus (numbers : string) (enabled : bool)
  | SetDhcpServerAddressPool (numbers address_pool : string)
  | SetDhcpServerLeaseTime (numbers lease_time : string)
  | AddDhcpServerNetwork (address gateway netmask dns_server : string)
  | RemoveDhcpServerNetwork (numbers : string)
  | SetDhcpServerNetwork (numbers address gateway netmask dns_server : string)
  | SetDhcpServerNetworkAddress (numbers new_address : string)
  | SetDhcpServerNetworkGateway (numbers new_gateway : string)
  | SetDhcpServerNetworkNetmask (numbers new_netmask : string)
  | SetDhcpServerNetworkDnsServer (numbers new_dns_server : string)
  | AddPppoeServer (service_name interface default_profile max_mtu max_mru : string)
                   (enabled : bool)
  | RemovePppoeServer (numbers : string)
  | SetPppoeServerStatus (numbers : string) (enabled : bool)
  | SetPppoeServerName (numbers new_service_name : string)
  | SetPppoeServerAuth (numbers authentication : string)
  | SetPppoeServerMaxMtu (numbers max_mtu : string)
  | SetPppoeServerMaxMru (numbers max_mru : string)
  | AddPppSecret (secret_name service_name profile_name password : string)
                 (enabled : bool)
  | RemovePppSecret (numbers : string)
  | SetPppSecretName (numbers new_name : string)
  | SetPppSecretPassword (numbers new_password : string)
  | SetPppSecretStatus (numbers : string) (enabled : bool)
  | SetPppSecretProfile (numbers new_profile_name : string).

Definition perform (op : mutation) : M unit :=
  match op with
  | AddAddressPool n r => add_address_pool n r
  | RemoveAddressPool n => remove_address_pool n
  | SetAddressPoolName n x => set_address_pool_name n x
  | SetAddressPoolRanges n x => set_address_pool_ranges n x
  | AddDhcpServer n i p l e => add_dhcp_server n i p l e
  | RemoveDhcpServer n => remove_dhcp_server n
  | SetDhcpServerStatus n e => set_dhcp_server_status n e
  | SetDhcpServerAddressPool n x => set_dhcp_server_address_pool n x
  | SetDhcpServerLeaseTime n x => set_dhcp_server_lease_time n x
  | AddDhcpServerNetwork a g m d => add_dhcp_server_network a g m d
  | RemoveDhcpServerNetwork n => remove_dhcp_server_network n
  | SetDhcpServerNetwork n a g m d => set_dhcp_server_network n a g m d
  | SetDhcpServerNetworkAddress n x => set_dhcp_server_network_address n x
  | SetDhcpServerNetworkGateway n x => set_dhcp_server_network_gateway n x
  | SetDhcpServerNetworkNetmask n x => set_dhcp_server_network_netmask n x
  | SetDhcpServerNetworkDnsServer n x => set_dhcp_server_network_dns_server n x
  | AddPppoeServer s i p mtu mru e => add_pppoe_server s i p mtu mru e
  | RemovePppoeServer n => remove_pppoe_server n
  | SetPppoeServerStatus n e => set_pppoe_server_status n e
  | SetPppoeServerName n x => set_pppoe_server_name n x
  | SetPppoeServerAuth n x => set_pppoe_server_auth n x
  | SetPppoeServerMaxMtu n x => set_pppoe_server_max_mtu n x
  | SetPppoeServerMaxMru n x => set_pppoe_server_max_mru n x
  | AddPppSecret s v p pw e => add_ppp_secret s v p pw e
  | RemovePppSecret n => remove_ppp_secret n
  | SetPppSecretName n x => set_ppp_secret_name n x
  | SetPppSecretPassword n x => set_ppp_secret_password n x
  | SetPppSecretStatus n e => set_ppp_secret_status n e
  | SetPppSecretProfile n x => set_ppp_secret_profile n x
  end.

(** The name under which an operation reports to [check_result]. *)
Definition label (op : mutation) : string :=
  match op with
  | AddAddressPool _ _ => "Add Pool"
  | RemoveAddressPool _ => "Remove Address Pool"
  | SetAddressPoolName _ _ => "Set Pool Name"
  | SetAddressPoolRanges _ _ => "Set Pool Ranges"
  | AddDhcpServer _ _ _ _ _ => "Add DHCP Server"
  | RemoveDhcpServer _ => "Remove DHCP Server"
  | SetDhcpServerStatus _ _ => "Set DHCP Server Status"
  | SetDhcpServerAddressPool _ _ => "Set DHCP Servel Address Pool"
  | SetDhcpServerLeaseTime _ _ => "Set DHCP Lease Time"
  | AddDhcpServerNetwork _ _ _ _ => "Add DHCP Server Network"
  | RemoveDhcpServerNetwork _ => "Remove DHCP Server Network"
  | SetDhcpServerNetwork _ _ _ _ _ => "Set DHCP Server Network"
  | SetDhcpServerNetworkAddress _ _ => "Set DHCP Server Network Address"
  | SetDhcpServerNetworkGateway _ _ => "Set DHCP Server Network Gateway"
  | SetDhcpServerNetworkNetmask _ _ => "Set DHCP Server Network Netmask"
  | SetDhcpServerNetworkDnsServer _ _ => "Set DHCP Server Network DNS Server"
  | AddPppoeServer _ _ _ _ _ _ => "Add PPPoE Server"
  | RemovePppoeServer _ => "Remove PPPoE Server"
  | SetPppoeServerStatus _ _ => "Set PPPoE Server Status"
  | SetPppoeServerName _ _ => "Set PPPoE Server Service Name"
  | SetPppoeServerAuth _ _ => "Set PPPoE Server Authentication"
  | SetPppoeServerMaxMtu _ _ => "Set PPPoE Server Max MTU"
  | SetPppoeServerMaxMru _ _ => "Set PPPoE Server Max MRU"
  | AddPppSecret _ _ _ _ _ => "Add PPPoE Server Secret"
  | RemovePppSecret _ => "Remove PPPoE Server Secret"
  | SetPppSecretName _ _ => "Set PPP Secret Name"
  | SetPppSecretPassword _ _ => "Set PPP Secret Password"
  | SetPppSecretStatus _ _ => "Set PPP Secret Status"
  | SetPppSecretProfile _ _ => "Set PPP Secret Profile"
  end.

(** The lines an operation has put on the wire. *)
Definition lines_sent (before after : world) : list string :=
  drop (length (sent before)) (sent after).

(** ** What a match is *)

(** The text a piece accepts. *)
Definition piece_accepts (p : piece) (m : string) : Prop :=
  match p with
  | Lit l => m = l
  | One k => exists c, m = String c "" /\ cls_match k c = true
  | Star k | StarLazy k => Py.all_chars (cls_match k) m = true
  | Plus k => m <> "" /\ Py.all_chars (cls_match k) m = true
  end.

Definition node_piece (n : node) : piece :=
  match n with
  | Bare p | Group p | Cluster p => p
  end.

(** The parts of a matched text that stand in capturing groups. *)
Fixpoint groups_of (r : regex) (parts : list string) : list string :=
  match r, parts with
  | Group _ :: r', m :: parts' => m :: groups_of r' parts'
  | _ :: r', _ :: parts' => groups_of r' parts'
  | _, _ => []
  end.

(** The number of capturing groups of a pattern. *)
Fixpoint group_count (r : regex) : nat :=
  match r with
  | [] => 0
  | Group _ :: r' => S (group_count r')
  | _ :: r' => group_count r'
  end.

(** A piece that cannot take in a newline. *)
Definition line_piece (p : piece) : bool :=
  match p with
  | Lit l => Py.all_chars (cls_match Dot) l
  | One Any | Star Any | StarLazy Any | Plus Any => false
  | _ => true
  end.

(** All capturing groups of a pattern stay on one line. *)
Definition line_groups (r : regex) : bool :=
  forallb (fun n => match n with Group p => line_piece p | _ => true end) r.

(** [v] is what is left of [s] after some text, after some non-empty text. *)
Definition suffix_of (v s : string) : Prop := exists u, s = u +:+ v.
Definition proper_suffix_of (v s : string) : Prop :=
  exists u, u <> "" /\ s = u +:+ v.

(** A string of decimal digits. *)
Definition digits (s : string) : bool := Py.all_chars (cls_match Digit) s.

(** ** More console texts *)

(** Two DHCP leases. *)
Definition lease_console : string :=
  " 0 D address=192.168.8.191 mac-address=48:4D:7E:B2:A7:1C status=bound " +:+ CRLF +:+
  "     server=test host-name=" +:+ QUOTE +:+ "PC-1" +:+ QUOTE +:+ " " +:+ CRLF +:+
  " 1 D address=192.168.8.192 mac-address=48:4D:7E:B2:A7:1D status=bound " +:+ CRLF +:+
  "     server=test2 host-name=" +:+ QUOTE +:+ "PC-2" +:+ QUOTE +:+ " " +:+ CRLF.

(** The one match they give: the start of the first lease and the end of
    the second. *)
Definition lease_items : list (list string) :=
  [["192.168.8.191"; "48:4D:7E:B2:A7:1C status=bound"; "test2"; "PC-2"]].

Definition lease_asked : world :=
  World 500 [] false
    ["/ip dhcp-server lease print detail" +:+ String CR ""]
    [(DEBUG, "Send telnet command /ip dhcp-server lease print detail")].

(** A DHCP network in row 12. *)
Definition network_row12 : string :=
  "12 address=10.0.0.0/8 gateway=10.0.0.1 netmask=8 dns-server=8.8.8.8 " +:+ CRLF.

Definition network_asked : world :=
  World 500 [] false
    ["/ip dhcp-server network print detail" +:+ String CR ""]
    [(DEBUG, "Send telnet command /ip dhcp-server network print detail")].

(** The two address-pool lines with nothing but a line end after each
    range. *)
Definition pool_bare (eol : string) : string :=
  "name=" +:+ QUOTE +:+ "pppoe" +:+ QUOTE +:+
  " ranges=192.168.100.201-192.168.100.250" +:+ eol +:+
  "name=" +:+ QUOTE +:+ "static" +:+ QUOTE +:+
  " ranges=192.168.2.1-192.168.2.100" +:+ eol.

(** Two DHCP networks with the same address, in rows 3 and 5. *)
Definition network_twins : string :=
  " 3 address=10.0.0.0/8 gateway=10.0.0.1 netmask=8 dns-server=8.8.8.8 " +:+ CRLF +:+
  " 5 address=10.0.0.0/8 gateway=10.0.0.2 netmask=8 dns-server=1.1.1.1 " +:+ CRLF.


(** Two PPP secrets with the same name, the first flagged X. *)
Definition secret_twins : string :=
  " 0 X name=" +:+ QUOTE +:+ "alice" +:+ QUOTE +:+
  " service=pppoe password=" +:+ QUOTE +:+ "pw1" +:+ QUOTE +:+
  " profile=default " +:+ CRLF +:+
  " 1   name=" +:+ QUOTE +:+ "alice" +:+ QUOTE +:+
  " service=any password=" +:+ QUOTE +:+ "pw2" +:+ QUOTE +:+
  " profile=profile2 " +:+ CRLF.



(** The failure echo the router sends for a row that does not exist. *)
Definition no_such_item : string :=
  CR_LF_CR +:+ "no such item" +:+ LF_CR.

(** ** Console text as plain text and control sequences *)

Inductive chunk :=
  | Text (s : string)
  | Control (q : string).

Definition chunk_text (c : chunk) : string :=
  match c with Text s | Control s => s end.

(** The text a list of chunks stands for. *)
Definition render (cs : list chunk) : string :=
  String.concat "" (chunk_text <$> cs).

(** The same text without its control sequences. *)
Fixpoint plain (cs : list chunk) : string :=
  match cs with
  | [] => ""
  | Text s :: cs' => s +:+ plain cs'
  | Control _ :: cs' => plain cs'
  end.

(** The chunks without the occurrences of one control sequence. *)
Fixpoint remove_control (q : string) (cs : list chunk) : list chunk :=
  match cs with
  | [] => []
  | Control t :: cs' =>
      if bool_decide (t = q) then remove_control q cs'
      else Control t :: remove_control q cs'
  | c :: cs' => c :: remove_control q cs'
  end.

Definition no_escape (s : string) : bool :=
  Py.all_chars (fun c => negb (Ascii.eqb c ESC)) s.

(** Plain text holds no ESC; control sequences are among the six. *)
Definition well_formed (cs : list chunk) : Prop :=
  Forall (fun c => match c with
                   | Text s => no_escape s = true
                   | Control q => q ∈ control_sequences
                   end) cs.

(** A capital letter A-Z. *)
Definition is_upper (c : ascii) : bool :=
  (65 <=? nat_of_ascii c)%nat && (nat_of_ascii c <=? 90)%nat.

(** * Properties *)

(** ** Strings *)

Section string_facts.

Implicit Types (a b c : ascii) (s t p r u v : string).

Lemma app_cons a s t : String a s +:+ t = String a (s +:+ t).
Proof. reflexivity. Qed.

Lemma app_nil_l s : "" +:+ s = s.
Proof. reflexivity. Qed.

Lemma app_nil_r s : s +:+ "" = s.
Proof. induction s as [|a s IH]; [done|]. by rewrite app_cons, IH. Qed.

Lemma app_assoc s t r : (s +:+ t) +:+ r = s +:+ t +:+ r.
Proof. induction s as [|a s IH]; [done|]. by rewrite !app_cons, IH. Qed.

Lemma length_app s t : String.length (s +:+ t) = String.length s + String.length t.
Proof. induction s as [|a s IH]; [done|]. rewrite app_cons. simpl. by rewrite IH. Qed.

Lemma ascii_eqb_true a b : Ascii.eqb a b = true <-> a = b.
Proof. apply Ascii.eqb_eq. Qed.

Lemma strip_prefix_Some p s r : Py.strip_prefix p s = Some r <-> s = p +:+ r.
Proof.
  revert s. induction p as [|a p IH]; intros s; simpl.
  - rewrite app_nil_l. split; congruence.
  - rewrite app_cons. destruct s as [|b s]; [split; discriminate|].
    destruct (Ascii.eqb a b) eqn:E.
    + apply ascii_eqb_true in E as ->. rewrite IH. split; congruence.
    + split; [discriminate|]. intros [= -> _]. by rewrite Ascii.eqb_refl in E.
Qed.

Lemma strip_prefix_app p r : Py.strip_prefix p (p +:+ r) = Some r.
Proof. by apply strip_prefix_Some. Qed.

Lemma startswith_true s p : Py.startswith s p = true <-> exists r, s = p +:+ r.
Proof.
  unfold Py.startswith. destruct (Py.strip_prefix p s) as [r|] eqn:E.
  - apply strip_prefix_Some in E. split; eauto.
  - split; [discriminate|]. intros [r ->]. by rewrite strip_prefix_app in E.
Qed.

Lemma contains_true p s :
  Py.contains p s = true <-> exists u v, s = u +:+ p +:+ v.
Proof.
  induction s as [|c s IH]; simpl; rewrite orb_true_iff, startswith_true.
  - split.
    + intros [[r ->]|?]; [|done]. by exists "", r.
    + intros ([|? ?] & v & H); [|by rewrite app_cons in H].
      left. by exists v.
  - rewrite IH. split.
    + intros [[r ->]|(u & v & ->)]; [by exists "", r|].
      by exists (String c u), v.
    + intros ([|c' u] & v & H).
      * left. by exists v.
      * rewrite app_cons in H. injection H as -> ->. right. by exists u, v.
Qed.

Lemma replace_go_length old s k :
  String.length (Py.replace_go old "" s k) <= String.length s.
Proof.
  revert k. induction s as [|c s IH]; intros k; simpl; [done|].
  destruct k as [|k].
  - destruct (Py.startswith _ _).
    + rewrite app_nil_l. etrans; [apply IH|]. lia.
    + simpl. specialize (IH 0). lia.
  - etrans; [apply IH|]. lia.
Qed.

Lemma replace_go_absent old new s :
  Py.contains old s = false -> Py.replace_go old new s 0 = s.
Proof.
  induction s as [|c s IH]; simpl; [done|].
  intros [H1 H2]%orb_false_iff. rewrite H1. by rewrite IH.
Qed.

Lemma replace_go_present old s :
  old <> "" ->
  Py.contains old s = true ->
  String.length (Py.replace_go old "" s 0) < String.length s.
Proof.
  intros Hold. induction s as [|c s IH]; simpl.
  - rewrite orb_false_r. intros [r H]%startswith_true.
    destruct old; [done|by rewrite app_cons in H].
  - destruct (Py.startswith (String c s) old) eqn:E; simpl.
    + intros _. rewrite app_nil_l.
      pose proof (replace_go_length old s (String.length old - 1)). lia.
    + intros H. specialize (IH H). lia.
Qed.

End string_facts.

(** ** [untag] *)

Section untag_facts.

Implicit Types (q t x : string) (qs : list string).

Lemma replace_nonempty t q new :
  q <> "" -> Py.replace t q new = Py.replace_go q new t 0.
Proof. by destruct q. Qed.

Lemma untag_foldl x :
  untag x = foldl (fun t q => Py.replace t q "") x control_sequences.
Proof. reflexivity. Qed.

Lemma control_sequences_nonempty : Forall (fun q => q <> "") control_sequences.
Proof. repeat constructor; discriminate. Qed.

Lemma strip_length qs t :
  Forall (fun q => q <> "") qs ->
  String.length (foldl (fun t q => Py.replace t q "") t qs) <= String.length t.
Proof.
  intros Hqs. revert t. induction Hqs as [|q qs Hq _ IH]; intros t; simpl; [done|].
  etrans; [apply IH|]. rewrite replace_nonempty by done. apply replace_go_length.
Qed.

Lemma strip_fixed qs t :
  Forall (fun q => q <> "") qs ->
  forallb (fun q => negb (Py.contains q t)) qs = true ->
  foldl (fun t q => Py.replace t q "") t qs = t.
Proof.
  intros Hqs. induction Hqs as [|q qs Hq _ IH]; simpl; [done|].
  intros [Hc Hrest]%andb_true_iff. apply negb_true_iff in Hc.
  rewrite replace_nonempty, replace_go_absent by done. auto.
Qed.

Lemma strip_shorter qs t :
  Forall (fun q => q <> "") qs ->
  forallb (fun q => negb (Py.contains q t)) qs = false ->
  String.length (foldl (fun t q => Py.replace t q "") t qs) < String.length t.
Proof.
  intros Hqs. induction Hqs as [|q qs Hq Hqs IH]; simpl; [done|].
  destruct (Py.contains q t) eqn:Hc; simpl.
  - intros _. eapply Nat.le_lt_trans; [by apply strip_length|].
    rewrite replace_nonempty by done. by apply replace_go_present.
  - rewrite replace_nonempty, replace_go_absent by done. auto.
Qed.

(** Text without any of the six sequences is left as it is. *)
Lemma untag_tag_free x : tag_free x = true -> untag x = x.
Proof.
  rewrite untag_foldl. apply strip_fixed, control_sequences_nonempty.
Qed.

(** Text with one of them gets shorter. *)
Lemma untag_shorter x :
  tag_free x = false -> String.length (untag x) < String.length x.
Proof.
  rewrite untag_foldl. apply strip_shorter, control_sequences_nonempty.
Qed.

(** ESC [ ESC [ m m: taking the inner reset out leaves a reset behind. *)
Lemma untag_nested :
  untag (String ESC ("[" +:+ SGR_RESET +:+ "m")) = SGR_RESET.
Proof. reflexivity. Qed.

(** C2, as stated, fails: sanitizing the sanitized form of
    ESC [ ESC [ m m changes it again. *)
Lemma untag_not_idempotent :
  untag (untag (String ESC ("[" +:+ SGR_RESET +:+ "m")))
  <> untag (String ESC ("[" +:+ SGR_RESET +:+ "m")).
Proof. rewrite untag_nested. discriminate. Qed.

(** C2, amended: sanitizing sanitized text is a no-op exactly when the
    sanitized text holds none of the six control sequences; one pass of
    removals can bring the two halves of a sequence together, and the
    second pass then removes it. *)
Theorem untag_idempotent_iff_tag_free x :
  untag (untag x) = untag x <-> tag_free (untag x) = true.
Proof.
  split; [|apply untag_tag_free].
  intros Heq. destruct (tag_free (untag x)) eqn:E; [done|].
  apply untag_shorter in E. rewrite Heq in E. lia.
Qed.
End untag_facts.

(** ** The matcher on the failure pattern *)

Section failure_pattern.

Implicit Types (s r m u v : string) (g : list string).

Lemma match_last_lit l s g :
  match_nodes [Bare (Lit l)] s g =
  match Py.strip_prefix l s with Some r => Some (g, r) | None => None end.
Proof. reflexivity. Qed.

Lemma dot_char c : cls_match Dot c = true <-> c <> LF.
Proof.
  simpl. rewrite negb_true_iff. split.
  - intros E ->. by rewrite Ascii.eqb_refl in E.
  - intros H. destruct (Ascii.eqb c LF) eqn:E; [|done].
    by apply Ascii.eqb_eq in E.
Qed.

(** [.*] followed by LF CR: the group is the rest of the line, and the
    line has to end in LF CR. *)
Lemma greedy_dot_line s (f : string -> list string) g r :
  greedy Dot s (fun m rest => match_nodes [Bare (Lit LF_CR)] rest (f m)) = Some (g, r)
  <-> exists m, Py.all_chars (cls_match Dot) m = true /\ s = m +:+ LF_CR +:+ r /\ g = f m.
Proof.
  revert f g r. induction s as [|c s IH]; intros f g r.
  - simpl. split; [discriminate|]. intros ([|? ?] & _ & H & _); discriminate.
  - cbn [greedy]. destruct (cls_match Dot c) eqn:Hc.
    + assert (forall r', Py.strip_prefix LF_CR (String c s) <> Some r') as Hno.
      { intros r' E%strip_prefix_Some. apply dot_char in Hc.
        unfold LF_CR in E. rewrite app_cons in E. congruence. }
      destruct (greedy Dot s _) as [[g' r']|] eqn:E;
        pose proof (fun g r => IH (fun m => f (String c m)) g r) as IH';
        cbv beta in IH'.
      * split.
        -- intros [= <- <-]. apply IH' in E as (m & Hm & -> & ->).
           exists (String c m). cbn [Py.all_chars]. by rewrite Hc, Hm.
        -- intros ([|c' m] & Hm & Hs & ->).
           { exfalso. eapply Hno, strip_prefix_Some, Hs. }
           rewrite app_cons in Hs. injection Hs as <- ->.
           cbn [Py.all_chars] in Hm. apply andb_true_iff in Hm as [_ Hm].
           rewrite <- E. apply IH'. eauto.
      * rewrite match_last_lit. split.
        -- intros H. destruct (Py.strip_prefix _ _) as [r0|] eqn:E'; [|done].
           by destruct (Hno r0).
        -- intros ([|c' m] & Hm & Hs & ->).
           { exfalso. eapply Hno, strip_prefix_Some, Hs. }
           rewrite app_cons in Hs. injection Hs as <- ->.
           cbn [Py.all_chars] in Hm. apply andb_true_iff in Hm as [_ Hm].
           exfalso. enough (None = Some (f (String c m), r)) by done.
           rewrite <- E. apply IH'. eauto.
    + rewrite match_last_lit. split.
      * intros H. destruct (Py.strip_prefix _ _) as [r'|] eqn:E; [|done].
        injection H as <- <-. apply strip_prefix_Some in E.
        exists "". by rewrite app_nil_l.
      * intros ([|c' m] & Hm & Hs & ->).
        -- rewrite app_nil_l in Hs. rewrite Hs, strip_prefix_app. done.
        -- rewrite app_cons in Hs. injection Hs as <- ->.
           cbn [Py.all_chars] in Hm. rewrite Hc in Hm. done.
Qed.

Lemma match_failure_re_unfold s :
  match_here failure_re s =
  match Py.strip_prefix CR_LF_CR s with
  | Some rest =>
      greedy Dot rest (fun m rest' => match_nodes [Bare (Lit LF_CR)] rest' ([] ++ [m]))
  | None => None
  end.
Proof. reflexivity. Qed.

(** A match of the failure pattern at the start of [s]. *)
Lemma match_failure_re s g r :
  match_here failure_re s = Some (g, r) <-> exists m, marker_at s "" m r /\ g = [m].
Proof.
  rewrite match_failure_re_unfold.
  destruct (Py.strip_prefix CR_LF_CR s) as [rest|] eqn:E.
  - apply strip_prefix_Some in E as ->.
    etrans; [apply (greedy_dot_line _ (fun m => [] ++ [m]))|].
    unfold marker_at. split.
    + intros (m & Hm & -> & ->). exists m. by rewrite app_nil_l.
    + intros (m & [Hs Hm] & ->). exists m. split_and!; [done| |done].
      rewrite app_nil_l in Hs. by apply (inj (String.app CR_LF_CR)) in Hs.
  - split; [discriminate|]. intros (m & [Hs Hm] & _).
    rewrite app_nil_l in Hs. by rewrite Hs, strip_prefix_app in E.
Qed.

End failure_pattern.

(** ** The scan of [findall] *)

Section findall_facts.

Implicit Types (s u v m : string) (g : list string) (re : regex).

Lemma app_eq_nil u v : u +:+ v = "" -> u = "" /\ v = "".
Proof. destruct u; [done|discriminate]. Qed.

Lemma app_eq_cons c s u v :
  String c s = u +:+ v ->
  (u = "" /\ v = String c s) \/ exists u', u = String c u' /\ s = u' +:+ v.
Proof.
  destruct u as [|c' u]; [by left|].
  rewrite app_cons. intros [= -> ->]. right. eauto.
Qed.

(** No match at any position: [findall] is empty. *)
Lemma findall_none re s :
  (forall u v, s = u +:+ v -> match_here re v = None) -> findall re s = [].
Proof.
  unfold findall. induction s as [|c s IH]; intros H; simpl.
  - by rewrite (H "" "").
  - rewrite (H "" (String c s)) by done. apply IH.
    intros u v ->. by apply (H (String c u) v).
Qed.

(** The leftmost position with a match gives the first item. *)
Lemma findall_first re s u v g r :
  s = u +:+ v ->
  (forall u' v', s = u' +:+ v' -> String.length u' < String.length u ->
                 match_here re v' = None) ->
  match_here re v = Some (g, r) ->
  exists tl, findall re s = g :: tl.
Proof.
  unfold findall. revert s. induction u as [|c u IH]; intros s -> Hearly Hv.
  - rewrite app_nil_l. destruct v as [|c v]; simpl; rewrite Hv; eauto.
  - rewrite app_cons. simpl.
    rewrite (Hearly "" (String c (u +:+ v))) by (done || simpl; lia).
    apply IH; [done| |done].
    intros u' v' E Hlen. apply (Hearly (String c u') v').
    + by rewrite app_cons, E.
    + simpl. lia.
Qed.

(** Every text has a leftmost match or none at all. *)
Lemma first_match_cases re s :
  (forall u v, s = u +:+ v -> match_here re v = None) \/
  exists u v g r,
    s = u +:+ v /\
    (forall u' v', s = u' +:+ v' -> String.length u' < String.length u ->
                   match_here re v' = None) /\
    match_here re v = Some (g, r).
Proof.
  induction s as [|c s IH].
  - destruct (match_here re "") as [[g r]|] eqn:E.
    + right. exists "", "", g, r. split_and!; [done| |done].
      simpl. intros; lia.
    + left. by intros u v [-> ->]%eq_sym%app_eq_nil.
  - destruct (match_here re (String c s)) as [[g r]|] eqn:E.
    { right. exists "", (String c s), g, r. split_and!; [done| |done].
      simpl. intros; lia. }
    destruct IH as [IH|(u & v & g & r & -> & Hearly & Hv)].
    + left. intros u v [[-> ->]|(u' & -> & ->)]%app_eq_cons; eauto.
    + right. exists (String c u), v, g, r. split_and!; [done| |done].
      intros u' v' [[-> ->]|(u'' & -> & Hs)]%app_eq_cons Hlen; [done|].
      apply (Hearly u'' v' Hs). simpl in Hlen. lia.
Qed.

Lemma marker_at_match text u m v :
  marker_at text u m v <->
  exists rest, text = u +:+ rest /\ match_here failure_re rest = Some ([m], v).
Proof.
  split.
  - intros [-> Hm]. eexists. split; [done|].
    apply match_failure_re. exists m. split; [|done].
    split; [by rewrite app_nil_l|done].
  - intros (rest & -> & (m' & [Hs Hm] & [= <-])%match_failure_re).
    rewrite app_nil_l in Hs. by split; [rewrite Hs|].
Qed.

(** The first item [findall] returns for the failure pattern is the
    message of the leftmost failure echo. *)
Lemma findall_failure_first text m :
  first_marker text m <-> exists tl, findall failure_re text = [m] :: tl.
Proof.
  split.
  - intros (u & v & (rest & -> & Hrest)%marker_at_match & Hmin).
    eapply findall_first; [done| |done].
    intros u' v' E Hlen.
    destruct (match_here failure_re v') as [[g r]|] eqn:Hv'; [|done].
    pose proof Hv' as (m' & _ & ->)%match_failure_re.
    assert (marker_at (u +:+ rest) u' m' r) as Hmk
      by (apply marker_at_match; eauto).
    apply Hmin in Hmk. lia.
  - intros [tl Hall].
    destruct (first_match_cases failure_re text)
      as [Hnone|(u & v & g & r & -> & Hearly & Hv)].
    + by rewrite findall_none in Hall.
    + destruct (findall_first _ _ _ _ _ _ eq_refl Hearly Hv) as [tl' Hall'].
      rewrite Hall in Hall'. injection Hall' as <- _.
      exists u, r. split; [apply marker_at_match; eauto|].
      intros u' m' v' (rest' & E & Hrest')%marker_at_match.
      destruct (decide (String.length u <= String.length u')) as [|Hlt]; [done|].
      rewrite (Hearly u' rest' E) in Hrest' by lia. done.
Qed.

(** [findall] returns nothing for the failure pattern exactly when the
    text holds no failure echo. *)
Lemma findall_failure_none text :
  (~ exists u m v, marker_at text u m v) <-> findall failure_re text = [].
Proof.
  split.
  - intros Hno. apply findall_none. intros u v ->.
    destruct (match_here failure_re v) as [[g r]|] eqn:Hv; [|done].
    pose proof Hv as (m' & _ & ->)%match_failure_re.
    destruct Hno. exists u, m', r. apply marker_at_match. eauto.
  - intros Hall (u & m & v & (rest & -> & Hrest)%marker_at_match).
    destruct (first_match_cases failure_re (u +:+ rest))
      as [Hnone|(u' & v' & g & r & E & Hearly & Hv)].
    + rewrite (Hnone u rest) in Hrest; done.
    + destruct (findall_first _ _ _ _ _ _ E Hearly Hv) as [tl' Hall'].
      by rewrite Hall in Hall'.
Qed.

End findall_facts.

(** ** [check_result] *)

Section check_result_facts.

Implicit Types (text msg : string) (w : world).

Lemma findall_failure_item text g tl :
  findall failure_re text = g :: tl -> exists m, g = [m] /\ first_marker text m.
Proof.
  intros Hall.
  destruct (first_match_cases failure_re text)
    as [Hnone|(u & v & g' & r & E & Hearly & Hv)].
  - by rewrite findall_none in Hall.
  - destruct (findall_first _ _ _ _ _ _ E Hearly Hv) as [tl' Hall'].
    rewrite Hall in Hall'. injection Hall' as <- _.
    pose proof Hv as (m & _ & ->)%match_failure_re.
    exists m. split; [done|]. apply findall_failure_first. eauto.
Qed.

(** C3, as stated, fails: a text with two carriage returns, a message and
    LF CR holds the pattern the claim describes, and the check records a
    success. *)
Lemma check_result_two_cr_echo :
  two_cr_marker_in two_cr_echo /\
  check_result "Add Pool" two_cr_echo fresh
  = (Ok (), World 0 [] false [] [(INFO, "Add Pool Success")]).
Proof.
  split; [|reflexivity].
  exists "", "no such item", "". reflexivity.
Qed.

(** C3, amended: the check raises [RosError] with the text
    "<where> Failed, <msg>" exactly when [msg] is the message of the
    leftmost failure echo, where a failure echo is CR LF CR, a message
    without a newline, then LF CR; it returns normally, leaving only a
    success entry in the log, exactly when the text holds no failure echo. *)
Theorem check_result_spec where_ text w :
  (forall msg,
     first_marker text msg <->
     check_result where_ text w
     = (Raise (RosError (where_ +:+ " Failed, " +:+ msg)), w)) /\
  ((~ exists before msg after, marker_at text before msg after) <->
   check_result where_ text w
   = (Ok (), World (clock w) (inbound w) (closed w) (sent w)
                   (journal w ++ [(INFO, where_ +:+ " Success")]))).
Proof.
  unfold check_result. split.
  - intros msg. split.
    + intros [tl ->]%findall_failure_first. reflexivity.
    + destruct (findall failure_re text) as [|g tl] eqn:Hall; [discriminate|].
      apply findall_failure_item in Hall as (m & -> & Hm).
      intros [= E]. apply (inj (String.app where_)) in E.
      apply (inj (String.app " Failed, ")) in E. by subst.
  - rewrite findall_failure_none.
    destruct (findall failure_re text) as [|g tl]; split; done.
Qed.

(** A newline inside the text between CR LF CR and LF CR also keeps the
    pattern from matching: [.] stops at it. *)
Lemma check_result_newline_in_message :
  check_result "Add Pool"
    (CR_LF_CR +:+ "no such" +:+ String LF "item" +:+ LF_CR) fresh
  = (Ok (), World 0 [] false [] [(INFO, "Add Pool Success")]).
Proof. reflexivity. Qed.

(** Two failure echoes: the message raised is the first one. *)
Lemma check_result_first_of_two :
  check_result "Add Pool"
    ("x" +:+ CR_LF_CR +:+ "no such item" +:+ LF_CR +:+
     "abc" +:+ CR_LF_CR +:+ "second" +:+ LF_CR) fresh
  = (Raise (RosError "Add Pool Failed, no such item"), fresh).
Proof. reflexivity. Qed.

End check_result_facts.

(** ** Sending a command and draining the answer *)

Section session_facts.

Implicit Types (w : world) (cmd : string).

(** The world after a command has been written and [ms] have passed. *)
Lemma write_sleep_run cmd ms w :
  (write cmd;; sleep ms) w
  = (Ok (), World (clock w + ms) (inbound w) (closed w)
                  (sent w ++ [cmd +:+ String CR ""])
                  (journal w ++ [(DEBUG, "Send telnet command " +:+ cmd)])).
Proof. reflexivity. Qed.

(** A read command: write, wait, drain once, sanitize, extract. *)
Lemma query_run {A} cmd ms (f : string -> A) w :
  (write cmd;; sleep ms;; rc ← untag <$> read_very_eager; mret (f rc)) w
  = let data := available (clock w + ms) (inbound w) in
    let out := sent w ++ [cmd +:+ String CR ""] in
    let jrn := journal w ++ [(DEBUG, "Send telnet command " +:+ cmd)] in
    if closed w && bool_decide (data = "")
    then (Raise EOFError, World (clock w + ms) (inbound w) (closed w) out jrn)
    else (Ok (f (untag data)),
          World (clock w + ms)
                (filter (fun c => ~ arrived (clock w + ms) c) (inbound w))
                (closed w) out jrn).
Proof.
  destruct w as [clk inb cl snt jrn].
  cbv [mbind M_bind mret M_ret fmap M_fmap write sleep log tn_write read_very_eager
       clock inbound closed sent journal].
  destruct (cl && _); reflexivity.
Qed.

Lemma query_ok {A} cmd ms (f : string -> A) w x w' :
  (write cmd;; sleep ms;; rc ← untag <$> read_very_eager; mret (f rc)) w = (Ok x, w') ->
  x = f (untag (available (clock w + ms) (inbound w))).
Proof.
  rewrite query_run. cbv zeta. destruct (closed w && _); congruence.
Qed.

End session_facts.

(** ** [AddressPool] *)

Section address_pool_facts.

Implicit Types (w : world).

(** The pattern of [get_address_pool], as the source spells it. *)
Lemma pool_re_text :
  show pool_re = "name=" +:+ QUOTE +:+ "(.*)" +:+ QUOTE +:+ " ranges=(.*) ".
Proof. reflexivity. Qed.

Lemma get_address_pool_unfold :
  get_address_pool
  = (write "/ip pool print detail";; sleep 1000;;
     rc ← untag <$> read_very_eager;
     mret ((fun pool => (group pool 0, group pool 1)) <$> findall pool_re rc)).
Proof. reflexivity. Qed.

(** C4, as stated, fails: on the two address-pool lines as they are
    spelled, with the line end (LF, or CR LF) straight after each range,
    [get_address_pool] returns no tuple at all. *)
Lemma get_address_pool_bare_lines :
  (get_address_pool (answering 200 (pool_bare (String LF "")))).1 = Ok [] /\
  (get_address_pool (answering 200 (pool_bare CRLF))).1 = Ok [].
Proof. split; reflexivity. Qed.

(** C4, amended: when each of the two address-pool entries is followed by
    a blank before its line ends, as the console prints it, and that text
    is the answer that has arrived after the one-second wait (the console
    capture [pool_console] or the two lines alone, [pool_plain]),
    [get_address_pool] returns exactly the two (name, ranges) tuples, in
    the order of the text. *)
Theorem get_address_pool_fixture w fixture :
  fixture ∈ [pool_console; pool_plain] ->
  available (clock w + 1000) (inbound w) = fixture ->
  (get_address_pool w).1
  = Ok [("pppoe", "192.168.100.201-192.168.100.250");
        ("static", "192.168.2.1-192.168.2.100")].
Proof.
  intros Hfix Hdata. rewrite get_address_pool_unfold, query_run. cbv zeta.
  rewrite Hdata.
  assert (bool_decide (fixture = "") = false
          /\ (fun pool => (group pool 0, group pool 1)) <$> findall pool_re (untag fixture)
             = [("pppoe", "192.168.100.201-192.168.100.250");
                ("static", "192.168.2.1-192.168.2.100")]) as [-> ->].
  { apply elem_of_cons in Hfix as [->|Hfix]; [by vm_compute|].
    apply list_elem_of_singleton in Hfix as ->. by vm_compute. }
  by rewrite andb_false_r.
Qed.

Lemma get_address_pool_fixture_witness :
  (get_address_pool (answering 200 pool_console)).1
  = Ok [("pppoe", "192.168.100.201-192.168.100.250");
        ("static", "192.168.2.1-192.168.2.100")].
Proof.
  apply (get_address_pool_fixture (answering 200 pool_console) pool_console).
  - left.
  - reflexivity.
Defined.

(** The text that follows a range on its line is part of the match only
    up to the last blank: without a blank after the range, no tuple. *)
Lemma pool_re_needs_blank :
  findall pool_re ("name=" +:+ QUOTE +:+ "static" +:+ QUOTE +:+
                   " ranges=192.168.2.1-192.168.2.100" +:+ CRLF) = [].
Proof. reflexivity. Qed.





End address_pool_facts.

(** ** Record extraction *)

Section extraction_facts.

Implicit Types (e : entity) (item : list string) (w : world)
  (r : gmap string string) (recs : list (gmap string string)).

(** The patterns, as the source spells them. *)
Lemma pattern_text :
  show dhcp_client_re
  = "address=(.*) mac-address=(.*) (?:[\s\S]*)server=(.*) (?:[\s\S]*)host-name="
    +:+ QUOTE +:+ "(.*)" +:+ QUOTE +:+ " " /\
  show dhcp_network_re
  = "(\d) address=(.*?) gateway=(.*?) netmask=(.*?) (?:[\s\S]*)dns-server=(.*?) " /\
  show pppoe_server_re
  = "(\d+) (.*?) (?:[\s\S]*?)service-name=" +:+ QUOTE +:+ "(.*)" +:+ QUOTE
    +:+ " interface=(.*) max-mtu=(.*) max-mru=(.*) (?:[\s\S]*?)authentication=(.*?) "
    +:+ "(?:[\s\S]*?)default-profile=(.*) " /\
  show ppp_profile_re
  = "name=" +:+ QUOTE +:+ "(.*)" +:+ QUOTE
    +:+ " local-address=(.*) remote-address=(.*?) (?:[\s\S]*?)use-encryption=(.*?) "
    +:+ "(?:[\s\S]*?)dns-server=(.*?) " /\
  show ppp_secret_re
  = "(\d+) (.*?) name=" +:+ QUOTE +:+ "(.*?)" +:+ QUOTE
    +:+ " service=(.*?) (?:[\s\S]*?)password=" +:+ QUOTE +:+ "(.*)" +:+ QUOTE
    +:+ "(?:[\s\S]*?)profile=(.*?) ".
Proof. split_and!; reflexivity. Qed.

Lemma extract_unfold e :
  extract e
  = (write (command e);; sleep 500;;
     rc ← untag <$> read_very_eager;
     mret (record_of e <$> findall (pattern e) rc)).
Proof. by destruct e. Qed.

(** Every record of a successful extraction was built from one match. *)
Lemma extract_ok e w recs w' :
  extract e w = (Ok recs, w') ->
  recs = record_of e <$> findall (pattern e)
                           (untag (available (clock w + 500) (inbound w))).
Proof. rewrite extract_unfold. apply query_ok. Qed.

Lemma record_of_dom e item :
  dom (record_of e item) = list_to_set (keys e).
Proof.
  destruct e; simpl;
    unfold client_of, network_of, pppoe_server_of, profile_of, secret_of;
    rewrite !dom_insert_L, dom_empty_L; set_solver.
Qed.

Lemma record_of_has e item key :
  key ∈ keys e -> is_Some (record_of e item !! key).
Proof.
  intros Hkey. apply (elem_of_dom (D := gset string)).
  rewrite record_of_dom. by apply elem_of_list_to_set.
Qed.

End extraction_facts.

(** ** Loops over the extracted records *)

Section loop_facts.

Implicit Types (w : world) (r : gmap string string)
  (recs : list (gmap string string)) (field wanted : string).

(** A loop whose body neither raises nor touches the session is a fold. *)
Lemma for_each_pure {A S} (l : list A) (body : A -> S -> M S) (step : S -> A -> S) s w :
  (forall x s w, x ∈ l -> body x s w = (Ok (step s x), w)) ->
  for_each l body s w = (Ok (foldl step s l), w).
Proof.
  revert s. induction l as [|x l IH]; intros s Hbody; [done|].
  cbn [for_each foldl]. unfold mbind, M_bind.
  rewrite Hbody by left. apply IH. intros. apply Hbody. by right.
Qed.

Lemma scan_number_run field wanted recs w :
  (forall r, r ∈ recs -> is_Some (r !! field) /\ is_Some (r !! "num")) ->
  scan_number field wanted recs w
  = (Ok (foldl (scan_step field wanted) (PInt (-1)) recs), w).
Proof.
  intros Hkeys. apply for_each_pure. intros r num w0 Hr.
  destruct (Hkeys r Hr) as [[v Hv] [n Hn]].
  unfold getitem, scan_step, mbind, M_bind. rewrite Hv. cbn.
  destruct (decide (v = wanted)) as [->|Hne].
  - rewrite !bool_decide_eq_true_2 by done. by rewrite Hn.
  - rewrite !bool_decide_eq_false_2 by congruence. done.
Qed.

Lemma scan_fold_no_match field wanted recs num :
  (forall r, r ∈ recs -> r !! field <> Some wanted) ->
  foldl (scan_step field wanted) num recs = num.
Proof.
  revert num. induction recs as [|r recs IH]; intros num Hno; [done|].
  simpl. unfold scan_step at 2. rewrite bool_decide_eq_false_2 by (apply Hno; left).
  apply IH. intros. apply Hno. by right.
Qed.

Lemma scan_fold_last field wanted before r after num :
  r !! field = Some wanted ->
  (forall r', r' ∈ after -> r' !! field <> Some wanted) ->
  foldl (scan_step field wanted) num (before ++ r :: after)
  = PStr (default "" (r !! "num")).
Proof.
  intros Hr Hafter. rewrite foldl_app. simpl.
  rewrite scan_fold_no_match by done.
  unfold scan_step. by rewrite bool_decide_eq_true_2.
Qed.

(** Among the records that match there is a last one. *)
Lemma last_match_split field wanted recs :
  (exists r, r ∈ recs /\ r !! field = Some wanted) ->
  exists before r after,
    recs = before ++ r :: after /\ r !! field = Some wanted /\
    forall r', r' ∈ after -> r' !! field <> Some wanted.
Proof.
  induction recs as [|x recs IH]; intros (r & Hin & Hr).
  - by apply elem_of_nil in Hin.
  - destruct (decide (Exists (fun r' => r' !! field = Some wanted) recs)) as [Hex|Hno].
    + apply Exists_exists in Hex. destruct (IH Hex) as (b & r' & a & -> & ? & ?).
      by exists (x :: b), r', a.
    + rewrite Exists_exists in Hno.
      apply elem_of_cons in Hin as [->|Hin]; [|destruct Hno; eauto].
      exists [], x, recs. split_and!; [done..|]. intros r' ? ?. destruct Hno; eauto.
Qed.

End loop_facts.

(** ** The lookup helpers *)

Section lookup_facts.

Implicit Types (h : helper) (w : world) (r : gmap string string)
  (recs : list (gmap string string)) (wanted : string).

Lemma lookup_number_unfold h wanted :
  lookup_number h wanted
  = (recs ← extract (scanned h);
     num ← scan_number (lookup_field h) wanted recs;
     if py_eq num (PInt (-1)) then mthrow (RosError (not_found h wanted))
     else mret num).
Proof. by destruct h. Qed.

Lemma scanned_keys h :
  lookup_field h ∈ keys (scanned h) /\ "num" ∈ keys (scanned h).
Proof. destruct h; simpl; set_solver. Qed.

(** The records of a scanned extraction all carry the keys the scan reads. *)
Lemma extract_scannable h w recs w' :
  extract (scanned h) w = (Ok recs, w') ->
  forall r, r ∈ recs -> is_Some (r !! lookup_field h) /\ is_Some (r !! "num").
Proof.
  intros ->%extract_ok r (item & -> & _)%list_elem_of_fmap.
  destruct (scanned_keys h). split; by apply record_of_has.
Qed.

(** A helper is the fold of its scan over the extracted records. *)
Lemma lookup_number_run h wanted w recs w' :
  extract (scanned h) w = (Ok recs, w') ->
  lookup_number h wanted w
  = match foldl (scan_step (lookup_field h) wanted) (PInt (-1)) recs with
    | PInt (-1) => (Raise (RosError (not_found h wanted)), w')
    | num => (Ok num, w')
    end.
Proof.
  intros Hex. rewrite lookup_number_unfold.
  unfold mbind at 1. unfold M_bind at 1. rewrite Hex.
  unfold mbind, M_bind.
  rewrite scan_number_run by (by eapply extract_scannable).
  by destruct (foldl _ _ _) as [[|[]|[]]|].
Qed.

(** C6: a lookup helper raises its "not found" [RosError] when no
    extracted record has the lookup field equal to the argument, and
    otherwise returns the number of a record that has. *)
Theorem lookup_number_spec h wanted w recs w' :
  extract (scanned h) w = (Ok recs, w') ->
  ((forall r, r ∈ recs -> r !! lookup_field h <> Some wanted) ->
   lookup_number h wanted w = (Raise (RosError (not_found h wanted)), w')) /\
  ((exists r, r ∈ recs /\ r !! lookup_field h = Some wanted) ->
   exists r n, r ∈ recs /\ r !! lookup_field h = Some wanted /\
               r !! "num" = Some n /\
               lookup_number h wanted w = (Ok (PStr n), w')).
Proof.
  intros Hex. rewrite (lookup_number_run _ _ _ _ _ Hex). split.
  - intros Hno. by rewrite scan_fold_no_match.
  - intros (b & r & a & -> & Hr & Ha)%last_match_split.
    rewrite scan_fold_last by done.
    destruct (extract_scannable _ _ _ _ Hex r) as [_ [n Hn]];
      [apply elem_of_app; right; left|].
    exists r, n. rewrite Hn. split_and!; [|done..].
    apply elem_of_app. right. left.
Qed.


End lookup_facts.

Section lookup_examples.

(** Run an extraction on a session that answers with a given text: the
    drained text and the matches are evaluated, the records stay as the
    source builds them. *)
Ltac run_extract e w text items :=
  rewrite extract_unfold, query_run; cbv zeta;
  assert (available (clock w + 500) (inbound w) = text) as -> by (by vm_compute);
  assert (findall (pattern e) (untag text) = items) as -> by (by vm_compute);
  assert (bool_decide (text = "") = false) as -> by (by vm_compute);
  reflexivity.

Lemma extract_pppoe_console :
  extract Server (answering 100 pppoe_console)
  = (Ok (pppoe_server_of <$> pppoe_items), pppoe_asked).
Proof. run_extract Server (answering 100 pppoe_console) pppoe_console pppoe_items. Qed.

Lemma extract_pppoe_twins :
  extract Server (answering 100 pppoe_twins)
  = (Ok (pppoe_server_of <$> twin_items), pppoe_asked).
Proof. run_extract Server (answering 100 pppoe_twins) pppoe_twins twin_items. Qed.

Lemma lookup_number_spec_witness :
  ((forall r, r ∈ pppoe_server_of <$> pppoe_items ->
              r !! lookup_field ServerByServiceName <> Some "service2") ->
   lookup_number ServerByServiceName "service2" (answering 100 pppoe_console)
   = (Raise (RosError (not_found ServerByServiceName "service2")), pppoe_asked)) /\
  ((exists r, r ∈ pppoe_server_of <$> pppoe_items /\
              r !! lookup_field ServerByServiceName = Some "service2") ->
   exists r n, r ∈ pppoe_server_of <$> pppoe_items /\
               r !! lookup_field ServerByServiceName = Some "service2" /\
               r !! "num" = Some n /\
               lookup_number ServerByServiceName "service2" (answering 100 pppoe_console)
               = (Ok (PStr n), pppoe_asked)).
Proof.
  exact (lookup_number_spec ServerByServiceName "service2"
           (answering 100 pppoe_console) (pppoe_server_of <$> pppoe_items)
           pppoe_asked extract_pppoe_console).
Defined.





(** The three outcomes on the console texts above. *)
Lemma lookup_number_examples :
  (get_pppoe_server_number "service2" (answering 100 pppoe_console)).1
  = Ok (PStr "1") /\
  (get_pppoe_server_number "service3" (answering 100 pppoe_console)).1
  = Raise (RosError "No Matched PPPoE Server Number for Service Name service3") /\
  (get_pppoe_server_number "service1" (answering 100 pppoe_twins)).1
  = Ok (PStr "1") /\
  (get_ppp_secret_number "alice" (answering 100 secret_twins)).1
  = Ok (PStr "1") /\
  (get_dhcp_server_network_number "10.0.0.0/8" (answering 100 network_twins)).1
  = Ok (PStr "3").
Proof. split_and!; by vm_compute. Qed.

End lookup_examples.

(** ** Keys and status of the extracted records *)

Section record_facts.

Implicit Types (e : entity) (item : list string) (w : world)
  (r : gmap string string) (recs : list (gmap string string)).

(** C7: every record of one extraction has the key set of its extractor,
    so all records of one call have the same keys. *)
Theorem extract_same_keys e w recs w' r :
  extract e w = (Ok recs, w') ->
  r ∈ recs ->
  dom r = list_to_set (C := gset string) (keys e).
Proof.
  intros ->%extract_ok (item & -> & _)%list_elem_of_fmap. apply record_of_dom.
Qed.

Lemma extract_same_keys_witness :
  dom (pppoe_server_of ["0"; "X"; "service1"; "ether1"; "1480";
                        "1480 mrru=disabled"; "pap,chap"; "default"])
  = list_to_set (C := gset string) (keys Server).
Proof.
  apply (extract_same_keys Server (answering 100 pppoe_console)
           (pppoe_server_of <$> pppoe_items) pppoe_asked).
  - exact extract_pppoe_console.
  - left.
Defined.

(** C1, as stated, fails: the second server of [pppoe_console] carries the
    flag D; the extraction returns normally and calls it enabled. *)
Lemma status_flag_D_enabled :
  (get_pppoe_server (answering 100 pppoe_console)).1
  = Ok (pppoe_server_of <$> pppoe_items) /\
  (fun item => group item 1) <$> pppoe_items = ["X"; "D"] /\
  (fun item => pppoe_server_of item !! "status") <$> pppoe_items
  = [Some "disabled"; Some "enabled"].
Proof.
  split_and!; [|reflexivity..].
  change (get_pppoe_server _) with (extract Server (answering 100 pppoe_console)).
  by rewrite extract_pppoe_console.
Qed.

(** C1, amended: the status of a PPPoE server record is "disabled" for the
    flag X, "invalid" for I, "disabled and invalid" for XI and "enabled" for
    every other flag, the empty one included; the status of a PPP secret
    record is "disabled" for the flag X and "enabled" for the empty flag.
    The mapping is a total function: no flag raises an error. *)
Theorem status_flag_mapping item :
  pppoe_server_of item !! "status" = Some (pppoe_server_status (group item 1)) /\
  secret_of item !! "status" = Some (ppp_secret_status (group item 1)) /\
  pppoe_server_status "X" = "disabled" /\
  pppoe_server_status "I" = "invalid" /\
  pppoe_server_status "XI" = "disabled and invalid" /\
  pppoe_server_status "" = "enabled" /\
  (forall flag, flag ∈ ["X"; "I"; "XI"] \/ pppoe_server_status flag = "enabled") /\
  ppp_secret_status "X" = "disabled" /\
  ppp_secret_status "" = "enabled".
Proof.
  split_and!; try reflexivity.
  intros flag. unfold pppoe_server_status.
  repeat case_bool_decide; subst; set_solver.
Qed.

End record_facts.

(** ** Commands that change the configuration *)

Section command_facts.

Implicit Types (w : world) (cmd : string).

(** A write command puts its line, closed by a carriage return, on the
    wire, whatever the router answers. *)
Lemma command_sent cmd ms where_ w :
  sent ((write cmd;; sleep ms;; rc ← read_very_eager; check_result where_ rc) w).2
  = sent w ++ [cmd +:+ String CR ""].
Proof.
  destruct w as [clk inb cl snt jrn].
  cbv [mbind M_bind write sleep log tn_write read_very_eager
       clock inbound closed sent journal].
  destruct (cl && _); [done|].
  unfold check_result. by destruct (findall _ _).
Qed.

(** C8: [add_pppoe_server] writes "disabled=yes" when asked for an
    enabled server and "disabled=no" otherwise, the reverse of
    [add_dhcp_server] and [add_ppp_secret]. *)
Theorem enabled_flag_inverted
    service_name interface default_profile max_mtu max_mru
    name address_pool lease_time secret_name profile_name password w :
  (exists pre,
     last (sent (add_pppoe_server service_name interface default_profile
                   max_mtu max_mru true w).2)
     = Some (pre +:+ " disabled=yes" +:+ String CR "")) /\
  (exists pre,
     last (sent (add_pppoe_server service_name interface default_profile
                   max_mtu max_mru false w).2)
     = Some (pre +:+ " disabled=no" +:+ String CR "")) /\
  (exists pre,
     last (sent (add_dhcp_server name interface address_pool lease_time true w).2)
     = Some (pre +:+ " disabled=no" +:+ String CR "")) /\
  (exists pre,
     last (sent (add_dhcp_server name interface address_pool lease_time false w).2)
     = Some (pre +:+ " disabled=yes" +:+ String CR "")) /\
  (exists pre,
     last (sent (add_ppp_secret secret_name service_name profile_name password
                   true w).2)
     = Some (pre +:+ " disabled=no" +:+ String CR "")) /\
  (exists pre,
     last (sent (add_ppp_secret secret_name service_name profile_name password
                   false w).2)
     = Some (pre +:+ " disabled=yes" +:+ String CR "")).
Proof.
  unfold add_pppoe_server, add_dhcp_server, add_ppp_secret.
  rewrite !command_sent, !last_snoc.
  split_and!.
  - exists ("/ interface pppoe-server server add service-name=" +:+ service_name
            +:+ " interface=" +:+ interface +:+ " default-profile=" +:+ default_profile
            +:+ " max-mtu=" +:+ max_mtu +:+ " max-mru=" +:+ max_mru).
    by rewrite !app_assoc.
  - exists ("/ interface pppoe-server server add service-name=" +:+ service_name
            +:+ " interface=" +:+ interface +:+ " default-profile=" +:+ default_profile
            +:+ " max-mtu=" +:+ max_mtu +:+ " max-mru=" +:+ max_mru).
    by rewrite !app_assoc.
  - exists ("/ip dhcp-server add name=" +:+ name +:+ " interface=" +:+ interface
            +:+ " address-pool=" +:+ address_pool +:+ " lease-time=" +:+ lease_time).
    by rewrite !app_assoc.
  - exists ("/ip dhcp-server add name=" +:+ name +:+ " interface=" +:+ interface
            +:+ " address-pool=" +:+ address_pool +:+ " lease-time=" +:+ lease_time).
    by rewrite !app_assoc.
  - exists ("/ppp secret add name=" +:+ secret_name +:+ " service=" +:+ service_name
            +:+ " profile=" +:+ profile_name +:+ " password=" +:+ password).
    by rewrite !app_assoc.
  - exists ("/ppp secret add name=" +:+ secret_name +:+ " service=" +:+ service_name
            +:+ " profile=" +:+ profile_name +:+ " password=" +:+ password).
    by rewrite !app_assoc.
Qed.

End command_facts.

(** ** [set_pppoe_server_dns] *)

Section dns_facts.

Implicit Types (w : world) (s : gmap string string)
  (servers : list (gmap string string)) (numbers : string).

Lemma foldl_keep {A S} (l : list A) (x : S) : foldl (fun y _ => y) x l = x.
Proof. by induction l. Qed.

(** The first loop leaves [service_name] unassigned when no record has
    the wanted number. *)
Lemma find_service_name_none numbers servers w :
  (forall s, s ∈ servers -> is_Some (s !! "num") /\ is_Some (s !! "service_name")) ->
  (forall s, s ∈ servers -> s !! "num" <> Some numbers) ->
  for_each servers (fun server service_name =>
    n ← getitem server "num";
    if bool_decide (n = numbers)
    then s ← getitem server "service_name"; mret (Some s)
    else mret service_name) None w
  = (Ok None, w).
Proof.
  intros Hkeys Hno.
  rewrite (for_each_pure _ _ (fun service_name _ => service_name)).
  - by rewrite foldl_keep.
  - intros s sn w0 Hs. destruct (Hkeys s Hs) as [[n Hn] _].
    unfold getitem, mbind, M_bind. rewrite Hn. cbn.
    rewrite bool_decide_eq_false_2; [done|].
    intros ->. by apply (Hno s Hs).
Qed.

(** C9: when no extracted PPPoE server has the number asked for, the call
    ends in the unbound-local error for [service_name], not in [RosError]. *)
Theorem set_pppoe_server_dns_unbound numbers new_dns w servers w' :
  get_pppoe_server w = (Ok servers, w') ->
  (forall s, s ∈ servers -> s !! "num" <> Some numbers) ->
  set_pppoe_server_dns numbers new_dns w
  = (Raise (UnboundLocalError "service_name"), w').
Proof.
  intros Hex Hno.
  assert (forall s, s ∈ servers ->
            is_Some (s !! "num") /\ is_Some (s !! "service_name")) as Hkeys.
  { apply (extract_ok Server) in Hex as ->.
    intros s (item & -> & _)%list_elem_of_fmap.
    split; apply (record_of_has Server); simpl; set_solver. }
  unfold set_pppoe_server_dns.
  unfold mbind at 1. unfold M_bind at 1. rewrite Hex.
  unfold mbind at 1. unfold M_bind at 1.
  rewrite find_service_name_none by done.
  destruct servers as [|s rest]; [done|].
  destruct (Hkeys s) as [_ [v Hv]]; [left|].
  cbn [for_each]. unfold getitem, mbind, M_bind. by rewrite Hv.
Qed.

Lemma set_pppoe_server_dns_unbound_witness :
  set_pppoe_server_dns "7" "8.8.8.8" (answering 100 pppoe_console)
  = (Raise (UnboundLocalError "service_name"), pppoe_asked).
Proof.
  apply (set_pppoe_server_dns_unbound "7" "8.8.8.8"
           (answering 100 pppoe_console) (pppoe_server_of <$> pppoe_items)).
  - exact extract_pppoe_console.
  - intros s (item & -> & Hitem)%list_elem_of_fmap.
    change (Some (group item 0) <> Some "7").
    unfold pppoe_items in Hitem.
    apply elem_of_cons in Hitem as [->|Hitem]; [discriminate|].
    apply list_elem_of_singleton in Hitem as ->. discriminate.
Defined.

(** An empty server list ends the same way: the variable is then read
    when the error message is built. *)
Lemma set_pppoe_server_dns_no_servers :
  (set_pppoe_server_dns "0" "8.8.8.8" fresh).1
  = Raise (UnboundLocalError "service_name").
Proof. reflexivity. Qed.

End dns_facts.

(** ** What the matcher returns is a match *)

Section matcher_facts.

Implicit Types (k : cls) (p : piece) (r : regex) (s m rest : string)
  (kont : cont) (g : list string).

Lemma all_chars_app P s t :
  Py.all_chars P (s +:+ t) = Py.all_chars P s && Py.all_chars P t.
Proof.
  induction s as [|c s IH]; [done|].
  rewrite app_cons. simpl. by rewrite IH, andb_assoc.
Qed.

(** A successful repetition handed some run of the set to the rest of the
    pattern. *)
Lemma greedy_sound k s kont res :
  greedy k s kont = Some res ->
  exists m rest, s = m +:+ rest /\ Py.all_chars (cls_match k) m = true /\
                 kont m rest = Some res.
Proof.
  revert kont. induction s as [|c s IH]; intros kont; cbn [greedy].
  - intros H. by exists "", "".
  - destruct (cls_match k c) eqn:Hc; [|intros H; by exists "", (String c s)].
    destruct (greedy k s _) as [res'|] eqn:E.
    + intros [= ->]. apply IH in E as (m & rest & -> & Hm & Hk).
      exists (String c m), rest. cbn [Py.all_chars]. by rewrite Hc, Hm.
    + intros H. by exists "", (String c s).
Qed.

Lemma lazy_sound k s kont res :
  lazy k s kont = Some res ->
  exists m rest, s = m +:+ rest /\ Py.all_chars (cls_match k) m = true /\
                 kont m rest = Some res.
Proof.
  revert kont. induction s as [|c s IH]; intros kont; cbn [lazy].
  - destruct (kont "" "") eqn:E; [|done]. intros [= ->]. by exists "", "".
  - destruct (kont "" (String c s)) eqn:E.
    { intros [= ->]. by exists "", (String c s). }
    destruct (cls_match k c) eqn:Hc; [|done].
    intros (m & rest & -> & Hm & Hk)%IH.
    exists (String c m), rest. cbn [Py.all_chars]. by rewrite Hc, Hm.
Qed.

Lemma match_piece_sound p s kont res :
  match_piece p s kont = Some res ->
  exists m rest, s = m +:+ rest /\ piece_accepts p m /\ kont m rest = Some res.
Proof.
  destruct p as [l|k|k|k|k]; cbn [match_piece piece_accepts].
  - destruct (Py.strip_prefix l s) as [rest|] eqn:E; [|done].
    apply strip_prefix_Some in E as ->. eauto.
  - destruct s as [|c s]; [done|]. destruct (cls_match k c) eqn:Hc; [|done].
    intros H. exists (String c ""), s. eauto.
  - apply greedy_sound.
  - apply lazy_sound.
  - destruct s as [|c s]; [done|]. destruct (cls_match k c) eqn:Hc; [|done].
    intros (m & rest & -> & Hm & Hk)%greedy_sound.
    exists (String c m), rest. cbn [Py.all_chars]. by rewrite Hc, Hm.
Qed.

(** A successful match splits the text into one part per node, each
    accepted by its piece; the groups are the parts in capturing position. *)
Lemma match_nodes_sound r s g g' rest :
  match_nodes r s g = Some (g', rest) ->
  exists parts,
    Forall2 (fun n m => piece_accepts (node_piece n) m) r parts /\
    s = String.concat "" parts +:+ rest /\
    g' = g ++ groups_of r parts.
Proof.
  revert s g. induction r as [|n r IH]; intros s g; cbn [match_nodes].
  - intros [= <- <-]. exists []. split_and!; [constructor|done|].
    cbn [groups_of]. by rewrite (right_id_L [] (++)).
  - assert (forall m t, String.concat "" (m :: t) = m +:+ String.concat "" t) as Hcat.
    { intros m [|m' t]; simpl; [by rewrite app_nil_r|done]. }
    destruct n as [p|p|p];
      intros (m & rest1 & -> & Hm & (parts & Hparts & -> & ->)%IH)%match_piece_sound;
      exists (m :: parts); rewrite Hcat, app_assoc;
      (split_and!; [by constructor|done|]); cbn [groups_of]; [done| |done].
    by rewrite <- (assoc_L (++)).
Qed.

End matcher_facts.

(** ** The items of [findall] *)

Section item_facts.

Implicit Types (k : cls) (p : piece) (r : regex) (s m v rest : string)
  (item g : list string).

Lemma suffix_of_refl s : suffix_of s s.
Proof. by exists "". Qed.

Lemma suffix_of_cons c v s : suffix_of v s -> suffix_of v (String c s).
Proof. intros [u ->]. by exists (String c u). Qed.

Lemma suffix_of_trans v s t : suffix_of v s -> suffix_of s t -> suffix_of v t.
Proof. intros [u ->] [u' ->]. exists (u' +:+ u). by rewrite app_assoc. Qed.

(** Every item is the groups of a match at some position of the text. *)
Lemma findall_go_item r s skip item :
  item ∈ findall_go r s skip ->
  exists v rest, suffix_of v s /\ match_here r v = Some (item, rest).
Proof.
  revert skip. induction s as [|c s IH]; intros skip; cbn [findall_go].
  - destruct skip; [|by intros ?%elem_of_nil].
    destruct (match_here r "") as [[g rest]|] eqn:E; [|by intros ?%elem_of_nil].
    intros ->%list_elem_of_singleton. exists "", rest. split; [apply suffix_of_refl|done].
  - destruct skip as [|n].
    + destruct (match_here r (String c s)) as [[g rest]|] eqn:E.
      * intros [->|Hin]%elem_of_cons.
        { exists (String c s), rest. split; [apply suffix_of_refl|done]. }
        apply IH in Hin as (v & rest' & Hv & Hm). eauto using suffix_of_cons.
      * intros (v & rest' & Hv & Hm)%IH. eauto using suffix_of_cons.
    + intros (v & rest' & Hv & Hm)%IH. eauto using suffix_of_cons.
Qed.

Lemma findall_item r s item :
  item ∈ findall r s ->
  exists v rest parts,
    suffix_of v s /\
    Forall2 (fun n m => piece_accepts (node_piece n) m) r parts /\
    v = String.concat "" parts +:+ rest /\
    item = groups_of r parts.
Proof.
  intros (v & rest & Hv & (parts & ? & ? & ?)%match_nodes_sound)%findall_go_item.
  exists v, rest, parts. by split_and!.
Qed.

Lemma groups_of_length r parts :
  Forall2 (fun n m => piece_accepts (node_piece n) m) r parts ->
  length (groups_of r parts) = group_count r.
Proof.
  induction 1 as [|n m r parts _ _ IH]; [done|].
  destruct n; cbn [groups_of group_count length]; by rewrite ?IH.
Qed.

(** Each item has one entry per capturing group of the pattern. *)
Lemma findall_item_length r s item :
  item ∈ findall r s -> length item = group_count r.
Proof.
  intros (v & rest & parts & _ & Hparts & _ & ->)%findall_item.
  by apply groups_of_length.
Qed.

Lemma all_chars_impl (P Q : ascii -> bool) s :
  (forall c, P c = true -> Q c = true) ->
  Py.all_chars P s = true -> Py.all_chars Q s = true.
Proof.
  intros HPQ. induction s as [|c s IH]; [done|]. simpl.
  intros [Hc Hs]%andb_true_iff. rewrite (HPQ c Hc). by apply IH.
Qed.

Lemma digit_not_newline c : cls_match Digit c = true -> cls_match Dot c = true.
Proof.
  intros H. apply dot_char. intros ->. by vm_compute in H.
Qed.

Lemma line_piece_accepts p m :
  line_piece p = true -> piece_accepts p m ->
  Py.all_chars (cls_match Dot) m = true.
Proof.
  destruct p as [l|[]|[]|[]|[]]; cbn [line_piece piece_accepts]; try done.
  - by intros ? ->.
  - intros _ (c & -> & Hc). cbn [Py.all_chars]. by rewrite Hc.
  - intros _ (c & -> & Hc). cbn [Py.all_chars].
    by rewrite (digit_not_newline c Hc).
  - intros _. apply all_chars_impl, digit_not_newline.
  - intros _. apply all_chars_impl, digit_not_newline.
  - by intros _ [_ ?].
  - intros _ [_ H]. revert H. apply all_chars_impl, digit_not_newline.
Qed.

Lemma line_groups_of r parts :
  line_groups r = true ->
  Forall2 (fun n m => piece_accepts (node_piece n) m) r parts ->
  Forall (fun f => Py.all_chars (cls_match Dot) f = true) (groups_of r parts).
Proof.
  intros Hr Hparts. induction Hparts as [|n m r parts Hm _ IH]; [constructor|].
  cbn [line_groups forallb] in Hr. apply andb_true_iff in Hr as [Hn Hr].
  destruct n; cbn [groups_of]; auto.
  constructor; [|auto]. by apply (line_piece_accepts p).
Qed.

(** With only line-bound groups in the pattern, no group of any item holds
    a newline. *)
Lemma findall_item_line r s item f :
  line_groups r = true -> item ∈ findall r s -> f ∈ item ->
  Py.all_chars (cls_match Dot) f = true.
Proof.
  intros Hr (v & rest & parts & _ & Hparts & _ & ->)%findall_item Hf.
  pose proof (line_groups_of r parts Hr Hparts) as Hall.
  by apply (proj1 (Forall_forall _ _) Hall).
Qed.

End item_facts.

(** ** Greedy repetition takes the longest run that lets the rest match *)

Section greedy_facts.

Implicit Types (k : cls) (p : piece) (r : regex) (s m v t rest : string)
  (kont : cont) (g : list string).

(** A failed repetition has tried every run of the set. *)
Lemma greedy_none k s kont :
  greedy k s kont = None ->
  forall m rest, s = m +:+ rest -> Py.all_chars (cls_match k) m = true ->
                 kont m rest = None.
Proof.
  revert kont. induction s as [|c s IH]; intros kont; cbn [greedy].
  - by intros H m rest [-> ->]%eq_sym%app_eq_nil _.
  - destruct (cls_match k c) eqn:Hc.
    + destruct (greedy k s _) as [res|] eqn:E; [done|].
      intros H m rest [[-> ->]|(m' & -> & ->)]%app_eq_cons Hm; [done|].
      cbn [Py.all_chars] in Hm. apply andb_true_iff in Hm as [_ Hm].
      by apply (IH _ E m' rest).
    + intros H m rest [[-> ->]|(m' & -> & ->)]%app_eq_cons Hm; [done|].
      cbn [Py.all_chars] in Hm. by rewrite Hc in Hm.
Qed.

(** A successful one has chosen the longest run for which the rest of the
    pattern matches. *)
Lemma greedy_max k s kont res :
  greedy k s kont = Some res ->
  exists m rest,
    s = m +:+ rest /\ kont m rest = Some res /\
    forall m' rest', s = m' +:+ rest' ->
      Py.all_chars (cls_match k) m' = true ->
      String.length m < String.length m' -> kont m' rest' = None.
Proof.
  revert kont. induction s as [|c s IH]; intros kont; cbn [greedy].
  - intros H. exists "", "". split_and!; [done..|].
    intros m' rest' [-> ->]%eq_sym%app_eq_nil _. simpl. lia.
  - assert (forall m' rest', String c s = m' +:+ rest' ->
              String.length "" < String.length m' ->
              exists m'', m' = String c m'' /\ s = m'' +:+ rest') as Hsplit.
    { intros m' rest' [[-> ->]|(m'' & -> & ->)]%app_eq_cons; [simpl; lia|eauto]. }
    destruct (cls_match k c) eqn:Hc.
    + destruct (greedy k s _) as [res'|] eqn:E.
      * intros [= ->]. apply IH in E as (m & rest & -> & Hk & Hmax).
        exists (String c m), rest. split_and!; [done..|].
        intros m' rest' [[-> ->]|(m'' & -> & Hs)]%app_eq_cons Hm' Hlen;
          [simpl in Hlen; lia|].
        cbn [Py.all_chars] in Hm'. apply andb_true_iff in Hm' as [_ Hm'].
        apply (Hmax m'' rest' Hs Hm'). simpl in Hlen. lia.
      * intros H. exists "", (String c s). split_and!; [done..|].
        intros m' rest' Hs Hm' Hlen.
        destruct (Hsplit m' rest' Hs Hlen) as (m'' & -> & ->).
        cbn [Py.all_chars] in Hm'. apply andb_true_iff in Hm' as [_ Hm'].
        by apply (greedy_none _ _ _ E m'' rest').
    + intros H. exists "", (String c s). split_and!; [done..|].
      intros m' rest' Hs Hm' Hlen.
      destruct (Hsplit m' rest' Hs Hlen) as (m'' & -> & ->).
      cbn [Py.all_chars] in Hm'. by rewrite Hc in Hm'.
Qed.

(** Whether a pattern fails does not depend on the groups closed before. *)
Lemma greedy_none_ext k s kont1 kont2 :
  (forall m rest, kont1 m rest = None -> kont2 m rest = None) ->
  greedy k s kont1 = None -> greedy k s kont2 = None.
Proof.
  revert kont1 kont2. induction s as [|c s IH]; intros kont1 kont2 Hk; cbn [greedy].
  - apply Hk.
  - destruct (cls_match k c); [|apply Hk].
    destruct (greedy k s (fun m => kont1 (String c m))) eqn:E1; [done|].
    rewrite (IH _ (fun m => kont2 (String c m)) (fun m => Hk (String c m)) E1).
    apply Hk.
Qed.

Lemma lazy_none_ext k s kont1 kont2 :
  (forall m rest, kont1 m rest = None -> kont2 m rest = None) ->
  lazy k s kont1 = None -> lazy k s kont2 = None.
Proof.
  revert kont1 kont2. induction s as [|c s IH]; intros kont1 kont2 Hk; cbn [lazy].
  - destruct (kont1 "" "") eqn:E; [done|]. by rewrite (Hk _ _ E).
  - destruct (kont1 "" (String c s)) eqn:E; [done|]. rewrite (Hk _ _ E).
    destruct (cls_match k c); [|done].
    apply IH. intros m. apply Hk.
Qed.

Lemma match_piece_none_ext p s kont1 kont2 :
  (forall m rest, kont1 m rest = None -> kont2 m rest = None) ->
  match_piece p s kont1 = None -> match_piece p s kont2 = None.
Proof.
  intros Hk. destruct p as [l|k|k|k|k]; cbn [match_piece].
  - destruct (Py.strip_prefix l s); [apply Hk|done].
  - destruct s as [|c s]; [done|]. destruct (cls_match k c); [apply Hk|done].
  - by apply greedy_none_ext.
  - by apply lazy_none_ext.
  - destruct s as [|c s]; [done|]. destruct (cls_match k c); [|done].
    apply greedy_none_ext. intros m. apply Hk.
Qed.

Lemma match_nodes_none_groups r s g1 g2 :
  match_nodes r s g1 = None -> match_nodes r s g2 = None.
Proof.
  revert s g1 g2. induction r as [|n r IH]; intros s g1 g2; cbn [match_nodes]; [done|].
  destruct n as [p|p|p]; apply match_piece_none_ext; intros m rest; apply IH.
Qed.

(** A match of a pattern with a greedy [[\s\S]*] in it: the rest of the
    pattern matched at some place and at no later place. *)
Lemma last_cluster_max pre tl s g g' rest :
  match_nodes (pre ++ Cluster (Star Any) :: tl) s g = Some (g', rest) ->
  exists t g1,
    suffix_of t s /\ match_nodes tl t g1 = Some (g', rest) /\
    forall t', proper_suffix_of t' t -> match_nodes tl t' g1 = None.
Proof.
  revert s g. induction pre as [|n pre IH]; intros s g.
  - cbn [app match_nodes match_piece].
    intros (m & t & -> & Hk & Hmax)%greedy_max.
    exists t, g. split_and!; [by exists m|done|].
    intros t' (u & Hu & ->). apply (Hmax (m +:+ u) t').
    + by rewrite app_assoc.
    + clear. by induction (m +:+ u).
    + rewrite length_app. destruct u; [done|simpl; lia].
  - cbn [app match_nodes].
    destruct n as [p|p|p];
      intros (m & rest1 & -> & _ & (t & g1 & Ht & ? & ?)%IH)%match_piece_sound;
      exists t, g1; (split_and!; [|done..]);
      (eapply suffix_of_trans; [exact Ht|by exists m]).
Qed.

(** After a literal that is not empty, what is left is shorter. *)
Lemma match_after_lit l post t g g' rest :
  l <> "" ->
  match_nodes (Bare (Lit l) :: post) t g = Some (g', rest) ->
  proper_suffix_of rest t.
Proof.
  intros Hl. cbn [match_nodes].
  intros (m & rest1 & -> & -> & (parts & _ & -> & _)%match_nodes_sound)%match_piece_sound.
  exists (l +:+ String.concat "" parts). split; [by destruct l|].
  by rewrite app_assoc.
Qed.

Lemma findall_go_skip r x rest :
  findall_go r (x +:+ rest) (String.length x) = findall_go r rest 0.
Proof. induction x as [|c x IH]; [done|]. rewrite app_cons. by cbn. Qed.

(** The first item comes from a match, and the scan goes on with what
    that match left. *)
Lemma findall_uncons r s g tl :
  findall r s = g :: tl ->
  exists v rest,
    suffix_of v s /\ match_here r v = Some (g, rest) /\
    (proper_suffix_of rest v -> tl = findall r rest).
Proof.
  unfold findall. induction s as [|c s IH]; cbn [findall_go].
  - destruct (match_here r "") as [[g0 rest]|] eqn:E; [|done].
    intros [= -> <-]. exists "", rest. split_and!; [apply suffix_of_refl|done|].
    by intros (u & Hu & [-> _]%eq_sym%app_eq_nil).
  - destruct (match_here r (String c s)) as [[g0 rest]|] eqn:E.
    + intros [= -> <-]. exists (String c s), rest.
      split_and!; [apply suffix_of_refl|done|].
      intros (u & Hu & Hs). destruct u as [|c' x]; [done|].
      rewrite app_cons in Hs. injection Hs as <- ->.
      rewrite length_app. cbn [String.length].
      replace (S (String.length x + String.length rest) - String.length rest - 1)
        with (String.length x) by lia.
      by rewrite findall_go_skip.
    + intros (v & rest & Hv & ? & ?)%IH. exists v, rest.
      split_and!; [by apply suffix_of_cons|done..].
Qed.

(** A pattern that ends in a greedy [[\s\S]*] followed by a literal
    matches at most once in a text: the first match runs to the last place
    where its end can match. *)
Lemma findall_at_most_one pre l post s :
  l <> "" ->
  length (findall (pre ++ Cluster (Star Any) :: Bare (Lit l) :: post) s) <= 1.
Proof.
  intros Hl.
  destruct (findall _ s) as [|g tl] eqn:Hall; [simpl; lia|].
  apply findall_uncons in Hall as (v & rest & _ & Hv & Htl).
  pose proof Hv as (t & g1 & Ht & Hend & Hmax)%last_cluster_max.
  pose proof (match_after_lit _ _ _ _ _ _ Hl Hend) as Hrest.
  rewrite Htl.
  2:{ destruct Hrest as (u & Hu & ->), Ht as [u' ->].
      exists (u' +:+ u). split; [by destruct u', u|by rewrite app_assoc]. }
  rewrite findall_none; [simpl; lia|].
  intros u v2 ->.
  destruct (match_here _ v2) as [[g2 rest2]|] eqn:Hv2; [|done].
  apply last_cluster_max in Hv2 as (t2 & g3 & [u2 ->] & Hend2 & _).
  rewrite (match_nodes_none_groups _ _ g1 g3) in Hend2; [done|].
  apply Hmax. destruct Hrest as (u0 & Hu0 & ->).
  exists (u0 +:+ u +:+ u2). split; [by destruct u0|by rewrite !app_assoc].
Qed.

End greedy_facts.

(** ** Fields of the extracted records *)

Section extra_records.
Implicit Types (e : entity) (item : list string) (w : world)
  (r : gmap string string) (recs : list (gmap string string)).

Lemma pattern_group_count e : group_count (pattern e) = length (keys e).
Proof. by destruct e. Qed.

Lemma pattern_line_groups e : line_groups (pattern e) = true.
Proof. by destruct e. Qed.


(** A value of a record is a group of its match or a status text. *)
Lemma record_value e item key v :
  length item = length (keys e) ->
  record_of e item !! key = Some v ->
  v ∈ item \/ v ∈ ["disabled"; "invalid"; "disabled and invalid"; "enabled"].
Proof.
  intros Hlen Hv.
  assert (key ∈ keys e) as Hkey.
  { apply (elem_of_dom_2 (D := gset string)) in Hv.
    rewrite record_of_dom in Hv. by apply elem_of_list_to_set in Hv. }
  destruct e; cbn [keys length] in Hlen, Hkey;
    repeat (destruct item as [|? item]; [discriminate Hlen|]);
    destruct item; try discriminate Hlen; clear Hlen;
    repeat (apply elem_of_cons in Hkey as [->|Hkey]);
    try (by apply elem_of_nil in Hkey);
    try (injection Hv as <-; left; by repeat (first [by left | right])).
  - right. cbn [record_of] in Hv.
    rewrite (eq_refl : pppoe_server_of _ !! "status"
                       = Some (pppoe_server_status (group _ 1))) in Hv.
    injection Hv as <-. unfold pppoe_server_status.
    repeat case_bool_decide; by repeat (first [by left | right]).
  - right. cbn [record_of] in Hv.
    rewrite (eq_refl : secret_of _ !! "status"
                       = Some (ppp_secret_status (group _ 1))) in Hv.
    injection Hv as <-. unfold ppp_secret_status.
    case_bool_decide; by repeat (first [by left | right]).
Qed.

(** No value of an extracted record holds a newline: every group of every
    extractor's pattern is bound to one line, and the status texts are fixed. *)
Theorem extract_values_one_line e w recs w' r key v :
  extract e w = (Ok recs, w') ->
  r ∈ recs ->
  r !! key = Some v ->
  Py.all_chars (cls_match Dot) v = true.
Proof.
  intros ->%extract_ok (item & -> & Hitem)%list_elem_of_fmap Hv.
  apply record_value in Hv as [Hv|Hv].
  - eapply findall_item_line; [apply pattern_line_groups|done..].
  - repeat (apply elem_of_cons in Hv as [->|Hv]); [done..|].
    by apply elem_of_nil in Hv.
  - rewrite <- pattern_group_count. by eapply findall_item_length.
Qed.

Lemma extract_pppoe_console' :
  extract Server (answering 100 pppoe_console)
  = (Ok (record_of Server <$> pppoe_items), pppoe_asked).
Proof. exact extract_pppoe_console. Qed.


Lemma extract_values_one_line_witness :
  Py.all_chars (cls_match Dot) "ether1" = true.
Proof.
  apply (extract_values_one_line Server (answering 100 pppoe_console)
           (record_of Server <$> pppoe_items) pppoe_asked
           (record_of Server ["0"; "X"; "service1"; "ether1"; "1480";
                              "1480 mrru=disabled"; "pap,chap"; "default"])
           "interface" "ether1").
  - exact extract_pppoe_console'.
  - left.
  - reflexivity.
Defined.

End extra_records.

(** ** Row numbers *)

Section number_facts.

Implicit Types (h : helper) (w : world) (item : list string)
  (r : gmap string string) (recs : list (gmap string string)).

Ltac run_extract e w text items :=
  rewrite extract_unfold, query_run; cbv zeta;
  assert (available (clock w + 500) (inbound w) = text) as -> by (by vm_compute);
  assert (findall (pattern e) (untag text) = items) as -> by (by vm_compute);
  assert (bool_decide (text = "") = false) as -> by (by vm_compute);
  reflexivity.

Lemma first_group_accepts p (re : regex) parts :
  Forall2 (fun n m => piece_accepts (node_piece n) m) (Group p :: re) parts ->
  piece_accepts p (group (groups_of (Group p :: re) parts) 0).
Proof. intros H. inversion H as [|n m r' parts' Hm _]; subst. exact Hm. Qed.

(** The first group of the three scanned patterns is the row number. *)
Lemma num_of_item h s item :
  item ∈ findall (pattern (scanned h)) s ->
  group item 0 <> "" /\ digits (group item 0) = true /\
  (h = NetworkByAddress -> String.length (group item 0) = 1).
Proof.
  intros (v & rest & parts & _ & Hparts & _ & ->)%findall_item.
  destruct h; cbn [scanned pattern] in *;
    unfold dhcp_network_re, pppoe_server_re, ppp_secret_re in *;
    apply first_group_accepts in Hparts; cbn [piece_accepts] in Hparts.
  - destruct Hparts as (c & -> & Hc). unfold digits. cbn [Py.all_chars].
    by rewrite Hc.
  - destruct Hparts as [? ?]. by split_and!.
  - destruct Hparts as [? ?]. by split_and!.
Qed.

Lemma record_num h item :
  record_of (scanned h) item !! "num" = Some (group item 0).
Proof. by destruct h. Qed.

Lemma scan_fold_cases field wanted recs init :
  foldl (scan_step field wanted) init recs = init \/
  exists r, r ∈ recs /\
            foldl (scan_step field wanted) init recs = PStr (default "" (r !! "num")).
Proof.
  revert init. induction recs as [|r recs IH]; intros init; [by left|].
  cbn [foldl]. destruct (IH (scan_step field wanted init r)) as [->|(r' & ? & ->)].
  - unfold scan_step. case_bool_decide; [right|by left].
    exists r. split; [left|done].
  - right. exists r'. split; [by right|done].
Qed.

(** A lookup helper that returns, returns a row number as the pattern
    captured it: a non-empty string of decimal digits, never the integer
    it started from; for a DHCP network it is a single digit. *)
Theorem lookup_number_digits h wanted w v w' :
  lookup_number h wanted w = (Ok v, w') ->
  exists n, v = PStr n /\ n <> "" /\ digits n = true /\
            (h = NetworkByAddress -> String.length n = 1).
Proof.
  destruct (extract (scanned h) w) as [[recs|e] w1] eqn:Hex.
  - rewrite (lookup_number_run _ _ _ _ _ Hex).
    destruct (scan_fold_cases (lookup_field h) wanted recs (PInt (-1)))
      as [->|(r & Hr & ->)]; [done|].
    intros [= <- <-]. apply extract_ok in Hex as ->.
    apply list_elem_of_fmap in Hr as (item & -> & Hitem).
    rewrite record_num. cbn [default]. exists (group item 0).
    split; [done|]. by eapply num_of_item.
  - rewrite lookup_number_unfold. unfold mbind at 1. unfold M_bind at 1.
    by rewrite Hex.
Qed.

Lemma extract_network_row12 :
  extract (scanned NetworkByAddress) (answering 100 network_row12)
  = (Ok (record_of Network <$> [["2"; "10.0.0.0/8"; "10.0.0.1"; "8"; "8.8.8.8"]]),
     network_asked).
Proof.
  run_extract (scanned NetworkByAddress) (answering 100 network_row12) network_row12
    [["2"; "10.0.0.0/8"; "10.0.0.1"; "8"; "8.8.8.8"]].
Qed.

(** The network printed in row 12 is reported as row 2. *)
Lemma lookup_number_row12 :
  lookup_number NetworkByAddress "10.0.0.0/8" (answering 100 network_row12)
  = (Ok (PStr "2"), network_asked).
Proof.
  rewrite (lookup_number_run _ _ _ _ _ extract_network_row12). reflexivity.
Qed.

Lemma lookup_number_digits_witness :
  exists n, PStr "2" = PStr n /\ n <> "" /\ digits n = true /\
            (NetworkByAddress = NetworkByAddress -> String.length n = 1).
Proof.
  exact (lookup_number_digits NetworkByAddress "10.0.0.0/8"
           (answering 100 network_row12) (PStr "2") network_asked
           lookup_number_row12).
Defined.

End number_facts.

(** ** How many records an extraction returns *)

Section count_facts.

Implicit Types (e : entity) (w : world) (recs : list (gmap string string)).

Ltac run_extract e w text items :=
  rewrite extract_unfold, query_run; cbv zeta;
  assert (available (clock w + 500) (inbound w) = text) as -> by (by vm_compute);
  assert (findall (pattern e) (untag text) = items) as -> by (by vm_compute);
  assert (bool_decide (text = "") = false) as -> by (by vm_compute);
  reflexivity.

(** Both DHCP patterns end in a greedy [[\s\S]*] followed by a keyword. *)
Lemma dhcp_patterns_greedy_end e :
  e = Lease \/ e = Network ->
  exists pre l post,
    l <> "" /\ pattern e = pre ++ Cluster (Star Any) :: Bare (Lit l) :: post.
Proof.
  intros [->| ->].
  - exists [Bare (Lit "address="); Group (Star Dot);
            Bare (Lit " mac-address="); Group (Star Dot);
            Bare (Lit " "); Cluster (Star Any);
            Bare (Lit "server="); Group (Star Dot); Bare (Lit " ")],
           ("host-name=" +:+ QUOTE),
           [Group (Star Dot); Bare (Lit (QUOTE +:+ " "))].
    split; [by vm_compute|reflexivity].
  - exists [Group (One Digit);
            Bare (Lit " address="); Group (StarLazy Dot);
            Bare (Lit " gateway="); Group (StarLazy Dot);
            Bare (Lit " netmask="); Group (StarLazy Dot);
            Bare (Lit " ")],
           "dns-server=",
           [Group (StarLazy Dot); Bare (Lit " ")].
    split; [done|reflexivity].
Qed.

(** [get_dhcp_server_client] and [get_dhcp_server_network] return at most
    one record, however many leases or networks the answer lists: the first
    match runs from the first entry to the last host name or DNS server of
    the text. *)
Theorem dhcp_extract_at_most_one e w recs w' :
  e = Lease \/ e = Network ->
  extract e w = (Ok recs, w') ->
  length recs <= 1.
Proof.
  intros (pre & l & post & Hl & Hre)%dhcp_patterns_greedy_end ->%extract_ok.
  rewrite length_fmap, Hre. by apply findall_at_most_one.
Qed.

Lemma extract_lease_console :
  extract Lease (answering 100 lease_console)
  = (Ok (record_of Lease <$> lease_items), lease_asked).
Proof. run_extract Lease (answering 100 lease_console) lease_console lease_items. Qed.

Lemma dhcp_extract_at_most_one_witness :
  length (record_of Lease <$> lease_items) <= 1.
Proof.
  apply (dhcp_extract_at_most_one Lease (answering 100 lease_console)
           (record_of Lease <$> lease_items) lease_asked).
  - by left.
  - exact extract_lease_console.
Defined.

End count_facts.

(** ** The family of configuration commands *)

Section mutation_facts.

Implicit Types (op : mutation) (w : world) (cmd text msg : string).

Lemma concat_cons m (t : list string) :
  String.concat "" (m :: t) = m +:+ String.concat "" t.
Proof. destruct t; simpl; [by rewrite app_nil_r|done]. Qed.

(** What [check_result] does, on the result and on the session. *)
Lemma check_result_outcome where_ text w :
  (forall msg,
     first_marker text msg <->
     (check_result where_ text w).1
     = Raise (RosError (where_ +:+ " Failed, " +:+ msg))) /\
  ((~ exists before msg after, marker_at text before msg after) <->
   (check_result where_ text w).1 = Ok ()) /\
  sent (check_result where_ text w).2 = sent w /\
  clock (check_result where_ text w).2 = clock w /\
  inbound (check_result where_ text w).2 = inbound w.
Proof.
  unfold check_result. split_and!.
  - intros msg. split.
    + intros [tl ->]%findall_failure_first. reflexivity.
    + destruct (findall failure_re text) as [|g tl] eqn:Hall; [discriminate|].
      apply findall_failure_item in Hall as (m & -> & Hm).
      cbn. intros [= E]. apply (inj (String.app where_)) in E.
      apply (inj (String.app " Failed, ")) in E. by subst.
  - rewrite findall_failure_none.
    destruct (findall failure_re text) as [|g tl]; split; done.
  - by destruct (findall failure_re text).
  - by destruct (findall failure_re text).
  - by destruct (findall failure_re text).
Qed.

(** A configuration command on an open connection: the line goes out, half
    a second passes, what has arrived is drained and checked. *)
Lemma mutate_run cmd where_ w :
  closed w = false ->
  (write cmd;; sleep 500;; rc ← read_very_eager; check_result where_ rc) w
  = check_result where_ (available (clock w + 500) (inbound w))
      (World (clock w + 500)
             (filter (fun c => ~ arrived (clock w + 500) c) (inbound w))
             false
             (sent w ++ [cmd +:+ String CR ""])
             (journal w ++ [(DEBUG, "Send telnet command " +:+ cmd)])).
Proof.
  destruct w as [clk inb cl snt jrn]. simpl. intros ->. reflexivity.
Qed.

(** Every operation of the family has that shape, with its own label. *)
Lemma perform_unfold op :
  exists cmd,
    perform op
    = (write cmd;; sleep 500;; rc ← read_very_eager; check_result (label op) rc).
Proof. destruct op; eexists; reflexivity. Qed.

(** Each of the 29 configuration commands, on an open connection, writes
    exactly one line and takes half a second; its one drain, at the end of
    that half second, finds everything that has arrived by then and was
    not drained before, text left over from earlier commands included.  The
    command raises [RosError] with its own label and the router's message
    exactly when that text holds a failure echo, and returns normally
    exactly when it holds none. *)
Theorem perform_outcome op w :
  closed w = false ->
  (forall msg,
     first_marker (available (clock w + 500) (inbound w)) msg <->
     (perform op w).1 = Raise (RosError (label op +:+ " Failed, " +:+ msg))) /\
  ((~ exists before msg after,
        marker_at (available (clock w + 500) (inbound w)) before msg after) <->
   (perform op w).1 = Ok ()) /\
  (exists line, lines_sent w (perform op w).2 = [line +:+ String CR ""]) /\
  clock (perform op w).2 = (clock w + 500)%N.
Proof.
  intros Hopen. destruct (perform_unfold op) as [cmd ->].
  rewrite mutate_run by done.
  match goal with |- context [check_result ?l ?t ?w0] =>
    destruct (check_result_outcome l t w0) as (Hfail & Hok & Hsent & Hclock & _)
  end.
  split_and!; [done..| |done].
  exists cmd. unfold lines_sent. rewrite Hsent. cbn [sent].
  by rewrite drop_app_length.
Qed.

Lemma perform_outcome_witness :
  (perform (RemoveAddressPool "9") (answering 100 no_such_item)).1
  = Raise (RosError (label (RemoveAddressPool "9") +:+ " Failed, " +:+ "no such item")).
Proof.
  destruct (perform_outcome (RemoveAddressPool "9") (answering 100 no_such_item)
              eq_refl) as [Hfail _].
  apply Hfail. apply findall_failure_first. eexists. by vm_compute.
Defined.

(** A failure echo that arrived before the command was written, and was
    never drained, is found by the drain of this command. *)
Lemma perform_pending_echo :
  (perform (RemoveAddressPool "9") (World 1000 [(200%N, no_such_item)] false [] [])).1
  = Raise (RosError (label (RemoveAddressPool "9") +:+ " Failed, " +:+ "no such item")).
Proof. by vm_compute. Qed.

(** Chunks that had arrived before an empty drain carried no bytes, so a
    later drain finds what it would have found without the earlier one. *)
Lemma available_after_silence (t1 t2 : N) (l : list (N * string)) :
  (t1 <= t2)%N ->
  available t1 l = "" ->
  available t2 (filter (fun c => ~ arrived t1 c) l) = available t2 l.
Proof.
  intros Ht. unfold available.
  induction l as [|[t d] l IH]; [done|].
  rewrite !filter_cons.
  destruct (decide (arrived t1 (t, d))) as [H1|H1].
  - rewrite decide_False by tauto.
    rewrite decide_True by (unfold arrived in *; simpl in *; lia).
    cbn [fmap list_fmap snd]. rewrite !concat_cons.
    intros [-> Hl]%app_eq_nil. by rewrite IH.
  - rewrite decide_True by done. intros Hl.
    destruct (decide (arrived t2 (t, d))).
    + rewrite !filter_cons, decide_True by done.
      cbn [fmap list_fmap snd]. rewrite !concat_cons. by rewrite IH.
    + rewrite !filter_cons, decide_False by done. by apply IH.
Qed.

(** A failure echo that arrives after the half second of its own command
    and within that of the next: the command it answers returns normally
    and the next one raises the error, under its own label. *)
Theorem late_echo_blames_next op1 op2 w msg :
  closed w = false ->
  available (clock w + 500) (inbound w) = "" ->
  first_marker (available (clock w + 1000) (inbound w)) msg ->
  (perform op1 w).1 = Ok () /\
  (perform op2 (perform op1 w).2).1
  = Raise (RosError (label op2 +:+ " Failed, " +:+ msg)).
Proof.
  intros Hopen Hsilent Hecho.
  destruct (perform_unfold op1) as [cmd1 E1], (perform_unfold op2) as [cmd2 E2].
  rewrite E1, E2. rewrite (mutate_run cmd1) by done. rewrite Hsilent.
  change (check_result (label op1) "" ?w0)
    with (log INFO (label op1 +:+ " Success") w0).
  cbn [log fst snd clock inbound closed sent journal].
  split; [done|].
  rewrite mutate_run by done. cbn [clock inbound].
  match goal with |- context [check_result ?l ?t ?w0] =>
    destruct (check_result_outcome l t w0) as (Hfail & _)
  end.
  apply Hfail.
  rewrite available_after_silence by (done || lia).
  by replace (clock w + 500 + 500)%N with (clock w + 1000)%N by lia.
Qed.

Lemma late_echo_blames_next_witness :
  (perform (RemoveAddressPool "9") (answering 700 no_such_item)).1 = Ok () /\
  (perform (SetPppSecretName "0" "alice")
     (perform (RemoveAddressPool "9") (answering 700 no_such_item)).2).1
  = Raise (RosError (label (SetPppSecretName "0" "alice") +:+ " Failed, "
                     +:+ "no such item")).
Proof.
  apply (late_echo_blames_next (RemoveAddressPool "9") (SetPppSecretName "0" "alice")
           (answering 700 no_such_item) "no such item").
  - reflexivity.
  - reflexivity.
  - apply findall_failure_first. eexists. by vm_compute.
Defined.

End mutation_facts.

(** ** [set_pppoe_server_dns] when the row is found *)

Section dns_found_facts.

Implicit Types (w : world) (r : gmap string string)
  (servers : list (gmap string string)) (numbers sn p : string).

(** A loop that overwrites its local at every hit ends with the last hit. *)
Lemma foldl_last_hit {A S} (hit : A -> bool) (f : A -> S) init before x after :
  hit x = true ->
  (forall y, y ∈ after -> hit y = false) ->
  foldl (fun acc y => if hit y then f y else acc) init (before ++ x :: after) = f x.
Proof.
  intros Hx Hafter. rewrite foldl_app. cbn [foldl]. rewrite Hx.
  generalize (f x). induction after as [|y after IH]; intros acc; [done|].
  cbn [foldl]. rewrite (Hafter y) by left. apply IH. intros. apply Hafter. by right.
Qed.

Lemma server_keys w servers w' :
  extract Server w = (Ok servers, w') ->
  forall r, r ∈ servers ->
    is_Some (r !! "num") /\ is_Some (r !! "service_name") /\
    is_Some (r !! "default_profile").
Proof.
  intros ->%extract_ok r (item & -> & _)%list_elem_of_fmap.
  split_and!; apply (record_of_has Server); simpl;
    by repeat (first [by left | right]).
Qed.

(** The first loop: [service_name] is that of the last row with the number. *)
Lemma find_service_name numbers servers w :
  (forall r, r ∈ servers -> is_Some (r !! "num") /\ is_Some (r !! "service_name")) ->
  for_each servers (fun server service_name =>
    n ← getitem server "num";
    if bool_decide (n = numbers)
    then s ← getitem server "service_name"; mret (Some s)
    else mret service_name) None w
  = (Ok (foldl (fun acc r => if bool_decide (r !! "num" = Some numbers)
                             then r !! "service_name" else acc) None servers), w).
Proof.
  intros Hkeys. apply for_each_pure. intros r acc w0 Hr.
  destruct (Hkeys r Hr) as [[n Hn] [s Hs]].
  unfold getitem, mbind, M_bind. rewrite Hn. cbn.
  destruct (decide (n = numbers)) as [->|Hne].
  - rewrite !bool_decide_eq_true_2 by done. by rewrite Hs.
  - rewrite !bool_decide_eq_false_2 by congruence. done.
Qed.

(** The second loop: [profile_name] is the default profile of the last row
    with that service name. *)
Lemma find_profile_name sn servers w :
  (forall r, r ∈ servers ->
     is_Some (r !! "service_name") /\ is_Some (r !! "default_profile")) ->
  for_each servers (fun server profile_name =>
    s ← getitem server "service_name";
    wanted ← read_local "service_name" (Some sn);
    if bool_decide (s = wanted)
    then p ← getitem server "default_profile"; mret (Some p)
    else mret profile_name) None w
  = (Ok (foldl (fun acc r => if bool_decide (r !! "service_name" = Some sn)
                             then r !! "default_profile" else acc) None servers), w).
Proof.
  intros Hkeys. apply for_each_pure. intros r acc w0 Hr.
  destruct (Hkeys r Hr) as [[s Hs] [p Hp]].
  unfold getitem, read_local, mbind, M_bind. rewrite Hs. cbn.
  destruct (decide (s = sn)) as [->|Hne].
  - rewrite !bool_decide_eq_true_2 by done. by rewrite Hp.
  - rewrite !bool_decide_eq_false_2 by congruence. done.
Qed.

(** The two loops and the branch after them, when the row is found. *)
Lemma dns_found_run
    numbers new_dns w w' before1 r1 after1 before2 r2 after2 sn p :
  extract Server w = (Ok (before1 ++ r1 :: after1), w') ->
  r1 !! "num" = Some numbers ->
  (forall r, r ∈ after1 -> r !! "num" <> Some numbers) ->
  r1 !! "service_name" = Some sn ->
  before1 ++ r1 :: after1 = before2 ++ r2 :: after2 ->
  r2 !! "service_name" = Some sn ->
  (forall r, r ∈ after2 -> r !! "service_name" <> Some sn) ->
  r2 !! "default_profile" = Some p ->
  set_pppoe_server_dns numbers new_dns w
  = if bool_decide (p = "")
    then (Raise (RosError ("No Matched PPPoE Server Profile for Service Name " +:+ sn)),
          w')
    else (write ("/ppp profile set numbers=" +:+ p +:+ " dns-server=" +:+ new_dns);;
          sleep 500;;
          rc ← read_very_eager;
          check_result "Set PPPoE Server DNS" rc) w'.
Proof.
  intros Hex Hnum Hafter1 Hsn Hsame Hsn2 Hafter2 Hp.
  pose proof (server_keys _ _ _ Hex) as Hkeys.
  unfold set_pppoe_server_dns.
  unfold mbind at 1. unfold M_bind at 1.
  change get_pppoe_server with (extract Server). rewrite Hex.
  unfold mbind at 1. unfold M_bind at 1.
  rewrite find_service_name by (intros r Hr; destruct (Hkeys r Hr); tauto).
  rewrite (foldl_last_hit (fun r => bool_decide (r !! "num" = Some numbers))
             (fun r => r !! "service_name"));
    [|by apply bool_decide_eq_true_2
     |by intros r Hr; apply bool_decide_eq_false_2, Hafter1].
  rewrite Hsn.
  unfold mbind at 1. unfold M_bind at 1.
  rewrite find_profile_name by (intros r Hr; destruct (Hkeys r Hr); tauto).
  rewrite Hsame.
  rewrite (foldl_last_hit (fun r => bool_decide (r !! "service_name" = Some sn))
             (fun r => r !! "default_profile"));
    [|by apply bool_decide_eq_true_2
     |by intros r Hr; apply bool_decide_eq_false_2, Hafter2].
  rewrite Hp. cbn [truthy default].
  by destruct (bool_decide (p = "")).
Qed.

(** When a server has the number asked for, the DNS server is set on the
    default profile of the last server that shares the service name of the
    last server with that number; with an empty profile name nothing is
    sent and [RosError] names the service. *)
Theorem set_pppoe_server_dns_found
    numbers new_dns w w' before1 r1 after1 before2 r2 after2 sn p :
  extract Server w = (Ok (before1 ++ r1 :: after1), w') ->
  r1 !! "num" = Some numbers ->
  (forall r, r ∈ after1 -> r !! "num" <> Some numbers) ->
  r1 !! "service_name" = Some sn ->
  before1 ++ r1 :: after1 = before2 ++ r2 :: after2 ->
  r2 !! "service_name" = Some sn ->
  (forall r, r ∈ after2 -> r !! "service_name" <> Some sn) ->
  r2 !! "default_profile" = Some p ->
  set_pppoe_server_dns numbers new_dns w
  = if bool_decide (p = "")
    then (Raise (RosError ("No Matched PPPoE Server Profile for Service Name " +:+ sn)),
          w')
    else (write ("/ppp profile set numbers=" +:+ p +:+ " dns-server=" +:+ new_dns);;
          sleep 500;;
          rc ← read_very_eager;
          check_result "Set PPPoE Server DNS" rc) w'.
Proof.
  exact (dns_found_run numbers new_dns w w' before1 r1 after1 before2 r2 after2
           sn p).
Qed.

(** On [pppoe_twins], asking for row 0, whose profile is "default", sets
    the DNS server of "profile2", the profile of row 1. *)
Lemma set_pppoe_server_dns_found_witness :
  set_pppoe_server_dns "0" "8.8.8.8" (answering 100 pppoe_twins)
  = if bool_decide ("profile2" = "")
    then (Raise (RosError ("No Matched PPPoE Server Profile for Service Name "
                           +:+ "service1")), pppoe_asked)
    else (write ("/ppp profile set numbers=" +:+ "profile2" +:+ " dns-server="
                 +:+ "8.8.8.8");;
          sleep 500;;
          rc ← read_very_eager;
          check_result "Set PPPoE Server DNS" rc) pppoe_asked.
Proof.
  apply (set_pppoe_server_dns_found "0" "8.8.8.8" (answering 100 pppoe_twins)
           pppoe_asked
           []
           (pppoe_server_of ["0"; "X"; "service1"; "ether1"; "1480";
                             "1480 mrru=disabled"; "pap,chap"; "default"])
           [pppoe_server_of ["1"; ""; "service1"; "ether2"; "auto";
                             "auto mrru=disabled"; "pap"; "profile2"]]
           [pppoe_server_of ["0"; "X"; "service1"; "ether1"; "1480";
                             "1480 mrru=disabled"; "pap,chap"; "default"]]
           (pppoe_server_of ["1"; ""; "service1"; "ether2"; "auto";
                             "auto mrru=disabled"; "pap"; "profile2"])
           []
           "service1" "profile2").
  - exact extract_pppoe_twins.
  - reflexivity.
  - intros r ->%list_elem_of_singleton. discriminate.
  - reflexivity.
  - reflexivity.
  - reflexivity.
  - intros r Hr. by apply elem_of_nil in Hr.
  - reflexivity.
Defined.

End dns_found_facts.

(** ** A router that sends nothing *)

Section silent_facts.

Implicit Types (e : entity) (h : helper) (w : world).

Lemma findall_nothing e : findall (pattern e) (untag "") = [].
Proof. by destruct e. Qed.

Lemma extract_silent e w :
  closed w = false ->
  available (clock w + 500) (inbound w) = "" ->
  extract e w
  = (Ok [], World (clock w + 500)
                  (filter (fun c => ~ arrived (clock w + 500) c) (inbound w))
                  false
                  (sent w ++ [command e +:+ String CR ""])
                  (journal w ++ [(DEBUG, "Send telnet command " +:+ command e)])).
Proof.
  intros Hopen Hsilent. rewrite extract_unfold, query_run. cbv zeta.
  by rewrite Hopen, Hsilent, findall_nothing.
Qed.

(** When the connection is open and nothing has arrived after the half
    second, every extraction returns the empty list, not an error, and
    every lookup helper raises its "not found" [RosError]. *)
Theorem lookup_number_silent h wanted w :
  closed w = false ->
  available (clock w + 500) (inbound w) = "" ->
  (forall e, (extract e w).1 = Ok []) /\
  (lookup_number h wanted w).1 = Raise (RosError (not_found h wanted)).
Proof.
  intros Hopen Hsilent. split.
  - intros e. by rewrite extract_silent.
  - by rewrite (lookup_number_run _ _ _ _ _ (extract_silent _ _ Hopen Hsilent)).
Qed.

Lemma lookup_number_silent_witness :
  (forall e, (extract e fresh).1 = Ok []) /\
  (lookup_number SecretByName "alice" fresh).1
  = Raise (RosError (not_found SecretByName "alice")).
Proof.
  apply (lookup_number_silent SecretByName "alice" fresh); reflexivity.
Defined.

End silent_facts.

(** ** What [get_address_pool] and [get_ppp_profile_name] return is in the text *)

Section pool_facts.

Implicit Types (w : world) (name ranges text : string).

Lemma get_ppp_profile_name_unfold :
  get_ppp_profile_name
  = (write "/ppp profile print detail";; sleep 500;;
     rc ← untag <$> read_very_eager;
     mret ((fun item => group item 0) <$> findall profile_name_re rc)).
Proof. reflexivity. Qed.

(** Every tuple [get_address_pool] returns is spelled out in the sanitized
    answer: name="<name>" ranges=<ranges> and a blank, both on one line. *)
Theorem get_address_pool_sound w pools w' name ranges :
  get_address_pool w = (Ok pools, w') ->
  (name, ranges) ∈ pools ->
  exists before after,
    untag (available (clock w + 1000) (inbound w))
    = before +:+ ("name=" +:+ QUOTE) +:+ name +:+ (QUOTE +:+ " ranges=")
      +:+ ranges +:+ " " +:+ after /\
    Py.all_chars (cls_match Dot) name = true /\
    Py.all_chars (cls_match Dot) ranges = true.
Proof.
  rewrite get_address_pool_unfold. intros ->%query_ok.
  intros (item & [= -> ->] & Hitem)%list_elem_of_fmap.
  apply findall_item in Hitem as (v & rest & parts & [before ->] & Hparts & -> & ->).
  unfold pool_re in Hparts.
  repeat match goal with
         | H : Forall2 _ (_ :: _) _ |- _ =>
             apply Forall2_cons_inv_l in H as (? & ? & ? & H & ->)
         | H : Forall2 _ [] _ |- _ => apply Forall2_nil_inv_l in H as ->
         end.
  cbn [node_piece piece_accepts] in *. subst.
  cbn [groups_of group lookup_total list_lookup_total].
  exists before, rest. split_and!; [|done..].
  by rewrite !concat_cons, !app_assoc, app_nil_l.
Qed.

Lemma get_address_pool_sound_witness :
  exists before after,
    untag (available (clock (answering 200 pool_console) + 1000)
                     (inbound (answering 200 pool_console)))
    = before +:+ ("name=" +:+ QUOTE) +:+ "static" +:+ (QUOTE +:+ " ranges=")
      +:+ "192.168.2.1-192.168.2.100" +:+ " " +:+ after /\
    Py.all_chars (cls_match Dot) "static" = true /\
    Py.all_chars (cls_match Dot) "192.168.2.1-192.168.2.100" = true.
Proof.
  apply (get_address_pool_sound (answering 200 pool_console)
           [("pppoe", "192.168.100.201-192.168.100.250");
            ("static", "192.168.2.1-192.168.2.100")]
           (get_address_pool (answering 200 pool_console)).2).
  - by vm_compute.
  - right. left.
Defined.

(** Every name [get_ppp_profile_name] returns is spelled out in the
    sanitized answer as name="<name>", on one line. *)
Theorem get_ppp_profile_name_sound w names w' name :
  get_ppp_profile_name w = (Ok names, w') ->
  name ∈ names ->
  exists before after,
    untag (available (clock w + 500) (inbound w))
    = before +:+ ("name=" +:+ QUOTE) +:+ name +:+ QUOTE +:+ after /\
    Py.all_chars (cls_match Dot) name = true.
Proof.
  rewrite get_ppp_profile_name_unfold. intros ->%query_ok.
  intros (item & -> & Hitem)%list_elem_of_fmap.
  apply findall_item in Hitem as (v & rest & parts & [before ->] & Hparts & -> & ->).
  unfold profile_name_re in Hparts.
  repeat match goal with
         | H : Forall2 _ (_ :: _) _ |- _ =>
             apply Forall2_cons_inv_l in H as (? & ? & ? & H & ->)
         | H : Forall2 _ [] _ |- _ => apply Forall2_nil_inv_l in H as ->
         end.
  cbn [node_piece piece_accepts] in *. subst.
  cbn [groups_of group lookup_total list_lookup_total].
  exists before, rest. split_and!; [|done].
  by rewrite !concat_cons, !app_assoc, app_nil_l.
Qed.

Lemma get_ppp_profile_name_sound_witness :
  exists before after,
    untag (available (clock (answering 200 pool_plain) + 500)
                     (inbound (answering 200 pool_plain)))
    = before +:+ ("name=" +:+ QUOTE) +:+ "static" +:+ QUOTE +:+ after /\
    Py.all_chars (cls_match Dot) "static" = true.
Proof.
  apply (get_ppp_profile_name_sound (answering 200 pool_plain)
           ["pppoe"; "static"]
           (get_ppp_profile_name (answering 200 pool_plain)).2).
  - by vm_compute.
  - right. left.
Defined.

End pool_facts.

(** ** [untag] on coloured console text *)

Section render_facts.

Implicit Types (c : chunk) (cs : list chunk) (q t s rest : string).

Lemma control_shape q :
  q ∈ control_sequences ->
  exists q', q = String ESC q' /\ no_escape q' = true.
Proof.
  unfold control_sequences. intros H.
  repeat (apply elem_of_cons in H as [->|H]);
    [by eexists..|by apply elem_of_nil in H].
Qed.

(** No control sequence starts another one. *)
Lemma control_other t q rest :
  t ∈ control_sequences -> q ∈ control_sequences -> t <> q ->
  Py.startswith (t +:+ rest) q = false.
Proof.
  unfold control_sequences. intros Ht Hq Hne.
  repeat (apply elem_of_cons in Ht as [->|Ht]);
    try (by apply elem_of_nil in Ht);
    repeat (apply elem_of_cons in Hq as [->|Hq]);
    try (by apply elem_of_nil in Hq);
    done.
Qed.

Lemma replace_go_skip old new x rest :
  Py.replace_go old new (x +:+ rest) (String.length x)
  = Py.replace_go old new rest 0.
Proof. induction x as [|c x IH]; [done|]. rewrite app_cons. by cbn. Qed.

(** Text without ESC passes a replacement of a control sequence unchanged. *)
Lemma replace_go_plain q' new s rest :
  no_escape s = true ->
  Py.replace_go (String ESC q') new (s +:+ rest) 0
  = s +:+ Py.replace_go (String ESC q') new rest 0.
Proof.
  induction s as [|c s IH]; [done|].
  unfold no_escape. cbn [Py.all_chars].
  intros [Hc Hs]%andb_true_iff. apply negb_true_iff in Hc.
  rewrite !app_cons. cbn [Py.replace_go].
  unfold Py.startswith. cbn [Py.strip_prefix].
  rewrite Ascii.eqb_sym, Hc. by rewrite IH.
Qed.

Lemma replace_go_self q' rest :
  Py.replace_go (String ESC q') "" (String ESC q' +:+ rest) 0
  = Py.replace_go (String ESC q') "" rest 0.
Proof.
  rewrite app_cons. cbn [Py.replace_go].
  rewrite (proj2 (startswith_true _ _)) by (by exists rest).
  rewrite app_nil_l. cbn [String.length].
  replace (S (String.length q') - 1) with (String.length q') by lia.
  apply replace_go_skip.
Qed.

Lemma replace_go_other t q rest :
  t ∈ control_sequences -> q ∈ control_sequences -> t <> q ->
  Py.replace_go q "" (t +:+ rest) 0 = t +:+ Py.replace_go q "" rest 0.
Proof.
  intros Ht Hq Hne. pose proof (control_other t q rest Ht Hq Hne) as Hstart.
  apply control_shape in Ht as (t' & -> & Ht'), Hq as (q' & -> & _).
  rewrite !app_cons in *. cbn [Py.replace_go]. rewrite Hstart.
  by rewrite replace_go_plain.
Qed.

Lemma render_cons c cs : render (c :: cs) = chunk_text c +:+ render cs.
Proof. unfold render. by rewrite fmap_cons, concat_cons. Qed.

(** One pass of [untag] removes the occurrences of its sequence and
    nothing else. *)
Lemma replace_render q cs :
  q ∈ control_sequences -> well_formed cs ->
  Py.replace (render cs) q "" = render (remove_control q cs).
Proof.
  intros Hq Hcs.
  rewrite replace_nonempty
    by (apply control_shape in Hq as (? & -> & _); discriminate).
  induction Hcs as [|c cs Hc _ IH]; [done|].
  rewrite render_cons. destruct c as [s|t]; cbn [chunk_text remove_control].
  - destruct (control_shape q Hq) as (q' & -> & _).
    by rewrite replace_go_plain, IH, render_cons.
  - case_bool_decide as Htq.
    + subst t. destruct (control_shape q Hq) as (q' & Eq & _).
      rewrite Eq in *. by rewrite replace_go_self.
    + by rewrite replace_go_other, IH, render_cons.
Qed.

Lemma remove_control_wf q cs : well_formed cs -> well_formed (remove_control q cs).
Proof.
  induction 1 as [|c cs Hc _ IH]; [constructor|].
  destruct c as [s|t]; cbn [remove_control]; [by constructor|].
  case_bool_decide; [done|by constructor].
Qed.

Lemma plain_remove_control q cs : plain (remove_control q cs) = plain cs.
Proof.
  induction cs as [|[s|t] cs IH]; cbn [remove_control plain]; [done|by rewrite IH|].
  by case_bool_decide.
Qed.

Lemma remove_control_elem q t cs :
  Control t ∈ remove_control q cs -> t <> q /\ Control t ∈ cs.
Proof.
  induction cs as [|[s|t'] cs IH]; cbn [remove_control].
  - by intros ?%elem_of_nil.
  - intros [?|[? ?]%IH]%elem_of_cons; [done|]. split; [done|by right].
  - case_bool_decide.
    + intros [? ?]%IH. split; [done|by right].
    + intros [[= ->]|[? ?]%IH]%elem_of_cons; (split; [done|]); [left|by right].
Qed.

Lemma render_no_control cs :
  (forall t, Control t ∉ cs) -> render cs = plain cs.
Proof.
  induction cs as [|[s|t] cs IH]; intros Hno; [done| |].
  - rewrite render_cons. cbn [chunk_text plain]. rewrite IH; [done|].
    intros t Ht. apply (Hno t). by right.
  - destruct (Hno t). left.
Qed.

(** The passes of [untag] one after the other. *)
Lemma strip_render qs cs :
  (forall q, q ∈ qs -> q ∈ control_sequences) -> well_formed cs ->
  foldl (fun t q => Py.replace t q "") (render cs) qs
  = render (foldl (fun cs q => remove_control q cs) cs qs).
Proof.
  revert cs. induction qs as [|q qs IH]; intros cs Hqs Hcs; [done|].
  cbn [foldl]. rewrite replace_render by (done || apply Hqs; left).
  apply IH; [|by apply remove_control_wf].
  intros q' Hq'. apply Hqs. by right.
Qed.

Lemma plain_remove_all qs cs :
  plain (foldl (fun cs q => remove_control q cs) cs qs) = plain cs.
Proof.
  revert cs. induction qs as [|q qs IH]; intros cs; [done|].
  cbn [foldl]. by rewrite IH, plain_remove_control.
Qed.

Lemma remove_all_elem qs t cs :
  Control t ∈ foldl (fun cs q => remove_control q cs) cs qs ->
  (t ∉ qs) /\ (Control t ∈ cs).
Proof.
  revert cs. induction qs as [|q qs IH]; intros cs; cbn [foldl].
  - intros H. split; [by intros ?%elem_of_nil|done].
  - intros [Hqs [Hq Ht]%remove_control_elem]%IH. split; [|done].
    by intros [->|?]%elem_of_cons.
Qed.

(** On console text made of plain text without ESC and of the six control
    sequences, [untag] returns the plain text: every control sequence is
    removed and no other character is touched. *)
Theorem untag_render cs :
  well_formed cs -> untag (render cs) = plain cs.
Proof.
  intros Hcs. rewrite untag_foldl, strip_render by done.
  rewrite render_no_control; [apply plain_remove_all|].
  intros t [Hnot Ht]%remove_all_elem. apply Hnot.
  exact (proj1 (Forall_forall _ _) Hcs _ Ht).
Qed.

Lemma untag_render_witness :
  untag (render [Control SGR_BOLD; Text "name"; Control SGR_RESET; Text "=x";
                 Control ERASE_EOL])
  = plain [Control SGR_BOLD; Text "name"; Control SGR_RESET; Text "=x";
           Control ERASE_EOL].
Proof.
  apply untag_render. unfold well_formed, control_sequences.
  repeat constructor.
Defined.

(** [untag] never makes a text longer, and it leaves a text as it is
    exactly when the text holds none of the six control sequences. *)
Theorem untag_fixed_iff x :
  String.length (untag x) <= String.length x /\
  (untag x = x <-> tag_free x = true).
Proof.
  split.
  - rewrite untag_foldl. apply strip_length, control_sequences_nonempty.
  - split; [|apply untag_tag_free].
    intros Heq. destruct (tag_free x) eqn:E; [done|].
    apply untag_shorter in E. rewrite Heq in E. lia.
Qed.

End render_facts.

(** ** When [set_pppoe_server_dns] meets the unassigned variable *)

Section dns_iff_facts.

Implicit Types (w : world) (r : gmap string string)
  (servers : list (gmap string string)) (numbers sn p : string).

Lemma dns_unbound_run numbers new_dns w servers w' :
  extract Server w = (Ok servers, w') ->
  (forall r, r ∈ servers -> r !! "num" <> Some numbers) ->
  set_pppoe_server_dns numbers new_dns w
  = (Raise (UnboundLocalError "service_name"), w').
Proof.
  intros Hex Hno. pose proof (server_keys _ _ _ Hex) as Hkeys.
  unfold set_pppoe_server_dns.
  unfold mbind at 1. unfold M_bind at 1.
  change get_pppoe_server with (extract Server). rewrite Hex.
  unfold mbind at 1. unfold M_bind at 1.
  rewrite find_service_name_none;
    [|intros r Hr; destruct (Hkeys r Hr); tauto|done].
  destruct servers as [|r rest]; [done|].
  destruct (Hkeys r) as (_ & [v Hv] & _); [left|].
  cbn [for_each]. unfold getitem, mbind, M_bind. by rewrite Hv.
Qed.

(** A configuration command ends normally, in [RosError] or in [EOFError]. *)
Lemma command_never_unbound cmd where_ w name :
  ((write cmd;; sleep 500;; rc ← read_very_eager; check_result where_ rc) w).1
  <> Raise (UnboundLocalError name).
Proof.
  destruct w as [clk inb cl snt jrn].
  cbv [mbind M_bind write sleep log tn_write read_very_eager
       clock inbound closed sent journal].
  destruct (cl && _); [done|].
  unfold check_result. by destruct (findall _ _).
Qed.

(** [set_pppoe_server_dns] ends in the unbound-local error exactly when no
    extracted server has the number asked for. *)
Theorem set_pppoe_server_dns_unbound_iff numbers new_dns w servers w' :
  extract Server w = (Ok servers, w') ->
  (set_pppoe_server_dns numbers new_dns w).1
  = Raise (UnboundLocalError "service_name")
  <-> forall r, r ∈ servers -> r !! "num" <> Some numbers.
Proof.
  intros Hex. split; [|by intros ->%(dns_unbound_run _ new_dns _ _ _ Hex)].
  intros Hraise r Hr Hnum.
  pose proof (server_keys _ _ _ Hex) as Hkeys.
  destruct (last_match_split "num" numbers servers)
    as (b1 & r1 & a1 & -> & Hr1 & Ha1); [eauto|].
  destruct (Hkeys r1) as (_ & [sn Hsn] & _); [apply elem_of_app; right; left|].
  destruct (last_match_split "service_name" sn (b1 ++ r1 :: a1))
    as (b2 & r2 & a2 & Hsame & Hr2 & Ha2).
  { exists r1. split; [apply elem_of_app; right; left|done]. }
  destruct (Hkeys r2) as (_ & _ & [p Hp]).
  { rewrite Hsame. apply elem_of_app. right. left. }
  rewrite (dns_found_run numbers new_dns _ _ _ _ _ _ _ _ sn p
             Hex Hr1 Ha1 Hsn Hsame Hr2 Ha2 Hp) in Hraise.
  destruct (bool_decide (p = "")); [done|].
  by apply command_never_unbound in Hraise.
Qed.

Lemma set_pppoe_server_dns_unbound_iff_witness :
  (set_pppoe_server_dns "7" "8.8.8.8" (answering 100 pppoe_console)).1
  = Raise (UnboundLocalError "service_name")
  <-> forall r, r ∈ record_of Server <$> pppoe_items -> r !! "num" <> Some "7".
Proof.
  exact (set_pppoe_server_dns_unbound_iff "7" "8.8.8.8"
           (answering 100 pppoe_console) (record_of Server <$> pppoe_items)
           pppoe_asked extract_pppoe_console').
Defined.

End dns_iff_facts.

(** ** The switches of the status commands *)

Section switch_facts.

Implicit Types (w : world) (numbers : string).

(** The three status commands turn [enabled=True] into a command that
    enables: the verb "enable" for a DHCP server and a PPPoE server,
    "disabled=no" for a PPP secret; and [enabled=False] into its opposite. *)
Theorem status_commands_enable numbers w :
  last (sent (set_dhcp_server_status numbers true w).2)
  = Some (("/ip dhcp-server enable numbers=" +:+ numbers) +:+ String CR "") /\
  last (sent (set_dhcp_server_status numbers false w).2)
  = Some (("/ip dhcp-server disable numbers=" +:+ numbers) +:+ String CR "") /\
  last (sent (set_pppoe_server_status numbers true w).2)
  = Some (("/interface pppoe-server server enable numbers=" +:+ numbers)
          +:+ String CR "") /\
  last (sent (set_pppoe_server_status numbers false w).2)
  = Some (("/interface pppoe-server server disable numbers=" +:+ numbers)
          +:+ String CR "") /\
  last (sent (set_ppp_secret_status numbers true w).2)
  = Some (("/ppp secret set numbers=" +:+ numbers +:+ " disabled=no")
          +:+ String CR "") /\
  last (sent (set_ppp_secret_status numbers false w).2)
  = Some (("/ppp secret set numbers=" +:+ numbers +:+ " disabled=yes")
          +:+ String CR "").
Proof.
  unfold set_dhcp_server_status, set_pppoe_server_status, set_ppp_secret_status.
  rewrite !command_sent, !last_snoc. by split_and!.
Qed.

Lemma lower_char_not_upper c : is_upper (lower_char c) = false.
Proof.
  unfold lower_char. fold (is_upper c). destruct (is_upper c) eqn:E; [|done].
  unfold is_upper in *. apply andb_true_iff in E as [E1 E2].
  apply Nat.leb_le in E1, E2.
  rewrite nat_ascii_embedding by lia.
  apply andb_false_iff. right. apply Nat.leb_gt. lia.
Qed.

Lemma lower_no_upper s : Py.all_chars (fun c => negb (is_upper c)) (lower s) = true.
Proof.
  induction s as [|c s IH]; [done|]. cbn [lower Py.all_chars].
  by rewrite lower_char_not_upper, IH.
Qed.

Lemma lower_char_idem c : lower_char (lower_char c) = lower_char c.
Proof.
  pose proof (lower_char_not_upper c) as H.
  unfold lower_char at 1. fold (is_upper (lower_char c)). by rewrite H.
Qed.

Lemma lower_idem s : lower (lower s) = lower s.
Proof.
  induction s as [|c s IH]; [done|]. cbn [lower]. by rewrite lower_char_idem, IH.
Qed.

(** [set_pppoe_server_auth] sends the list of methods in lower case: the
    line has no capital letter after "authentication=", and the caller's
    capitals make no difference to what the command does. *)
Theorem set_pppoe_server_auth_lower numbers authentication w :
  (exists methods,
     last (sent (set_pppoe_server_auth numbers authentication w).2)
     = Some (("/interface pppoe-server server set numbers=" +:+ numbers
              +:+ " authentication=" +:+ methods) +:+ String CR "") /\
     Py.all_chars (fun c => negb (is_upper c)) methods = true) /\
  set_pppoe_server_auth numbers (lower authentication) w
  = set_pppoe_server_auth numbers authentication w.
Proof.
  split.
  - exists (lower authentication). split; [|apply lower_no_upper].
    unfold set_pppoe_server_auth. by rewrite command_sent, last_snoc.
  - unfold set_pppoe_server_auth. by rewrite lower_idem.
Qed.

End switch_facts.
